(** * Yggdrasil Commander: control-plane logic

    A shallow embedding of the configuration store, the peer bootstrap, the
    exit-node toggle and the reload routine of the Flask backend (as given
    in backend/IMPLEMENTATION_NOTES.md and backend/API.md), and of the
    frontend's [fetchAPI] wrapper and settings-page toggle handler.

    Python dictionaries with a fixed shape are records, Python lists are
    lists, [set(...)] is a [gset], the file system is a [gmap] from paths to
    contents, exceptions are explicit result values. *)

From Stdlib Require Import ZArith Ascii DecimalString.
From Stdlib Require String DecimalZ DecimalPos.
From stdpp Require Import base decidable option list strings gmap.

(** ** Python results *)

Module Py.

(** The exceptions the modelled code can meet. *)
Inductive exn : Type :=
| ValueError
| TypeError
| IndexError
| OSError
| TomlDecodeError.

(** A call either returns a value or raises. *)
Inductive result (A : Type) : Type :=
| Ok (a : A)
| Raise (e : exn).

Arguments Ok {A} a.
Arguments Raise {A} e.

#[global] Instance exn_eq_dec : EqDecision exn.
Proof. solve_decision. Defined.

(** ASCII model of [str.lower]. *)
Definition lower_ascii (c : ascii) : ascii :=
  let n := nat_of_ascii c in
  if (65 <=? n) && (n <=? 90) then ascii_of_nat (n + 32) else c.

Fixpoint lower (s : string) : string :=
  match s with
  | EmptyString => EmptyString
  | String c s' => String (lower_ascii c) (lower s')
  end.

(** [needle in hay] on strings: substring test. *)
Fixpoint contains (needle hay : string) : bool :=
  String.prefix needle hay ||
  match hay with
  | EmptyString => false
  | String _ hay' => contains needle hay'
  end.

End Py.

(** ** The configuration document *)

Module Config.

(** The ["TunnelRouting"] block of yggdrasil.conf (ARCHITECTURE.md,
    "Configuration Structure"). *)
Record tunnel_routing : Type := mkTunnelRouting {
  Enable : bool;
  IPv6Destinations : list string;
  IPv6Sources : list string;
  IPv4Destinations : list string;
  IPv4Sources : list string
}.

(** The configuration dictionary.  ["TunnelRouting"] may be absent;
    [Other] carries every remaining key with its value, in order. *)
Record ConfigDocument : Type := mkConfig {
  Peers : list string;
  TunnelRouting : option tunnel_routing;
  AdminListen : string;
  Other : list (string * string)
}.

#[global] Instance tunnel_routing_eq_dec : EqDecision tunnel_routing.
Proof. solve_decision. Defined.

#[global] Instance ConfigDocument_eq_dec : EqDecision ConfigDocument.
Proof. solve_decision. Defined.

(** Modelled from the spec: the routing block a document without a
    ["TunnelRouting"] key is given before the toggle rules run (the
    statement that fetches [tunnel_routing] is not part of the published
    snippet); routing disabled, the four route lists empty. *)
Definition default_tunnel_routing : tunnel_routing :=
  {| Enable := false;
     IPv6Destinations := [];
     IPv6Sources := [];
     IPv4Destinations := [];
     IPv4Sources := [] |}.

(** Modelled from the spec: [mock_config], the constant returned when the
    configuration file does not exist; empty peers, routing disabled, the
    default admin listen address. *)
Definition mock_config : ConfigDocument :=
  {| Peers := [];
     TunnelRouting := Some default_tunnel_routing;
     AdminListen := "unix:///var/run/yggdrasil/yggdrasil.sock";
     Other := [] |}.

End Config.

(** ** Exit-node toggle *)

Module ExitNode.
Import Config.

Definition DEFAULT_ROUTE : string := "::/0".

(** Python truthiness of a list. *)
Definition truthy (l : list string) : bool :=
  match l with
  | [] => false
  | _ :: _ => true
  end.

(** Python [any]. *)
Definition any (bs : list bool) : bool := existsb id bs.

(** Python [list.remove(x)]: deletes the first item equal to [x]. It is
    only called under the guard [x in l]. *)
Fixpoint list_remove (x : string) (l : list string) : list string :=
  match l with
  | [] => []
  | y :: l' => if decide (y = x) then l' else y :: list_remove x l'
  end.

Definition set_Enable (b : bool) (tr : tunnel_routing) : tunnel_routing :=
  {| Enable := b;
     IPv6Destinations := IPv6Destinations tr;
     IPv6Sources := IPv6Sources tr;
     IPv4Destinations := IPv4Destinations tr;
     IPv4Sources := IPv4Sources tr |}.

Definition set_IPv6Destinations (l : list string) (tr : tunnel_routing)
  : tunnel_routing :=
  {| Enable := Enable tr;
     IPv6Destinations := l;
     IPv6Sources := IPv6Sources tr;
     IPv4Destinations := IPv4Destinations tr;
     IPv4Sources := IPv4Sources tr |}.

Definition any_route (tr : tunnel_routing) : bool :=
  any [ truthy (IPv6Destinations tr); truthy (IPv6Sources tr);
        truthy (IPv4Destinations tr); truthy (IPv4Sources tr) ].

(** The toggle rules, IMPLEMENTATION_NOTES.md section 5:
<<
    if enabled:
        tunnel_routing['Enable'] = True
        if '::/0' not in tunnel_routing['IPv6Destinations']:
            tunnel_routing['IPv6Destinations'].append('::/0')
    else:
        if '::/0' in tunnel_routing['IPv6Destinations']:
            tunnel_routing['IPv6Destinations'].remove('::/0')
        if not any([IPv6Destinations, IPv6Sources, IPv4Destinations, IPv4Sources]):
            tunnel_routing['Enable'] = False
>> *)
Definition toggle (enabled : bool) (tr : tunnel_routing) : tunnel_routing :=
  if enabled then
    let tr1 := set_Enable true tr in
    if negb (bool_decide (DEFAULT_ROUTE ∈ IPv6Destinations tr1))
    then set_IPv6Destinations (IPv6Destinations tr1 ++ [DEFAULT_ROUTE]) tr1
    else tr1
  else
    let tr1 :=
      if bool_decide (DEFAULT_ROUTE ∈ IPv6Destinations tr)
      then set_IPv6Destinations (list_remove DEFAULT_ROUTE (IPv6Destinations tr)) tr
      else tr in
    if negb (any_route tr1) then set_Enable false tr1 else tr1.

Definition routing_block (config : ConfigDocument) : tunnel_routing :=
  default default_tunnel_routing (TunnelRouting config).

(** The in-memory mutation performed by the exit-node operation. *)
Definition set_exit_node (enabled : bool) (config : ConfigDocument)
  : ConfigDocument :=
  {| Peers := Peers config;
     TunnelRouting := Some (toggle enabled (routing_block config));
     AdminListen := AdminListen config;
     Other := Other config |}.

(** Modelled from the spec: the [enabled] and [advertised_routes] fields
    of the response (API.md, endpoint 6), read off the document after the
    mutation. *)
Definition response_fields (config : ConfigDocument) : bool * list string :=
  (Enable (routing_block config), IPv6Destinations (routing_block config)).

(** The data-model invariant: routing is enabled only if some route list
    is non-empty. *)
Definition routing_invariant (config : ConfigDocument) : bool :=
  implb (Enable (routing_block config)) (any_route (routing_block config)).

(** A document whose routing is switched off while a LAN source route is
    configured. *)
Definition lan_only : ConfigDocument :=
  {| Peers := [];
     TunnelRouting :=
       Some {| Enable := false;
               IPv6Destinations := [];
               IPv6Sources := [];
               IPv4Destinations := [];
               IPv4Sources := ["10.0.0.0/8"] |};
     AdminListen := "unix:///var/run/yggdrasil/yggdrasil.sock";
     Other := [] |}.

(** An exit node that also routes a LAN. *)
Definition gateway_with_lan : ConfigDocument :=
  {| Peers := [];
     TunnelRouting :=
       Some {| Enable := true;
               IPv6Destinations := ["::/0"];
               IPv6Sources := [];
               IPv4Destinations := [];
               IPv4Sources := ["10.0.0.0/8"] |};
     AdminListen := "unix:///var/run/yggdrasil/yggdrasil.sock";
     Other := [] |}.

(** An exit node with no other route. *)
Definition exit_only : ConfigDocument :=
  {| Peers := [];
     TunnelRouting :=
       Some {| Enable := true;
               IPv6Destinations := ["::/0"];
               IPv6Sources := [];
               IPv4Destinations := [];
               IPv4Sources := [] |};
     AdminListen := "unix:///var/run/yggdrasil/yggdrasil.sock";
     Other := [] |}.

End ExitNode.

(** ** Peer bootstrap *)

Module Bootstrap.
Import Config Py.

(** The number of peers requested from [random.sample]. *)
Definition TARGET_COUNT : nat := 3.

(** [random.sample(population, k)]: [ValueError] when the sample is larger
    than the population, otherwise [k] items drawn without replacement.
    The generator is an explicit argument: the i-th draw takes the item at
    position [picks_i mod (remaining items)] and removes it from the
    pool. *)
Fixpoint draw {A : Type} (picks : list nat) (pool : list A) (k : nat)
  : list A :=
  match k with
  | 0 => []
  | S k' =>
      let j := hd 0 picks mod length pool in
      match pool !! j with
      | Some x => x :: draw (tl picks) (delete j pool) k'
      | None => []
      end
  end.

Definition random_sample {A : Type} (picks : list nat) (population : list A)
    (k : nat) : result (list A) :=
  if decide (k ≤ length population)
  then Ok (draw picks population k)
  else Raise ValueError.

(** IMPLEMENTATION_NOTES.md section 3:
<<
  preferred_regions = ['us', 'europe', 'united states', 'germany', ...]
  for country, peers in peer_data.items():
      if any(region in country.lower() for region in preferred_regions):
          available_peers.extend(peers)

  selected_peers = random.sample(available_peers, 3)

  existing_peers = set(config['Peers'])
  for peer in selected_peers:
      if peer not in existing_peers:
          config['Peers'].append(peer)
>> *)
Section Regions.

(** The entries of [preferred_regions] that the snippet elides. *)
Variable more_regions : list string.

Definition preferred_regions : list string :=
  ["us"; "europe"; "united states"; "germany"] ++ more_regions.

(** [any(region in country.lower() for region in preferred_regions)] *)
Definition preferred (country : string) : bool :=
  existsb (fun region => contains region (lower country)) preferred_regions.

(** The region loop: [available_peers.extend(peers)] for every matching
    country, in the order of [peer_data.items()]. *)
Definition available_peers (peer_data : list (string * list string))
  : list string :=
  foldl (fun available entry =>
           if preferred (fst entry) then available ++ snd entry
           else available)
        [] peer_data.

End Regions.

(** [selected_peers = random.sample(available_peers, 3)] *)
Definition select_peers (picks : list nat) (available : list string)
  : result (list string) :=
  random_sample picks available TARGET_COUNT.

(** One iteration of the deduplication loop:
    [if peer not in existing_peers: config['Peers'].append(peer)]. *)
Definition append_if_new (existing_peers : gset string)
    (peers : list string) (peer : string) : list string :=
  if negb (bool_decide (peer ∈ existing_peers))
  then peers ++ [peer]
  else peers.

(** [existing_peers = set(config['Peers'])], then the loop over
    [selected_peers]; the result is [config['Peers']] after the loop. *)
Definition merge_peers (config_peers selected_peers : list string)
  : list string :=
  let existing_peers : gset string := list_to_set config_peers in
  foldl (append_if_new existing_peers) config_peers selected_peers.

(** Modelled from the spec: [peers_added], "the list of URIs actually
    appended"; the published snippet shows the append but not the
    bookkeeping of the response, so the list is read off as what the loop
    put behind the peers that were there before. *)
Definition appended (config_peers selected_peers : list string)
  : list string :=
  drop (length config_peers) (merge_peers config_peers selected_peers).

Record bootstrap_result : Type := mkBootstrapResult {
  new_config : ConfigDocument;
  peers_added : list string;
  total_peers : nat
}.

(** Selection followed by the merge into the document. *)
Definition bootstrap (more_regions : list string) (picks : list nat)
    (peer_data : list (string * list string)) (config : ConfigDocument)
  : result bootstrap_result :=
  match select_peers picks (available_peers more_regions peer_data) with
  | Raise e => Raise e
  | Ok selected_peers =>
      let merged := merge_peers (Peers config) selected_peers in
      Ok {| new_config :=
              {| Peers := merged;
                 TunnelRouting := TunnelRouting config;
                 AdminListen := AdminListen config;
                 Other := Other config |};
            peers_added := appended (Peers config) selected_peers;
            total_peers := length merged |}
  end.

(** A peer list by country, and a document that already has one of the
    listed peers. *)
Definition sample_peer_data : list (string * list string) :=
  [("Germany", ["tcp://a:9001"; "tcp://b:9001"]);
   ("Japan", ["tcp://j:9001"]);
   ("United States", ["tcp://c:9001"])].

(** A peer list with two candidates, both in a preferred region. *)
Definition two_candidates : list (string * list string) :=
  [("germany", ["tcp://a:9001"; "tcp://b:9001"])].

(** A peer list without a country of a preferred region. *)
Definition far_candidates : list (string * list string) :=
  [("japan", ["tcp://j:9001"; "tcp://k:9001"; "tcp://l:9001"])].

Definition one_peer_config : ConfigDocument :=
  {| Peers := ["tcp://b:9001"];
     TunnelRouting := None;
     AdminListen := "unix:///var/run/yggdrasil/yggdrasil.sock";
     Other := [] |}.

End Bootstrap.

(** ** Configuration store *)

Module Store.
Import Config Py.

Definition CONFIG_PATH : string := "/etc/yggdrasil/yggdrasil.conf".
Definition TEMP_PATH : string := "/etc/yggdrasil/yggdrasil.conf.tmp".

(** The storage: the files that exist, with their contents, and whether
    the configuration directory may be written. *)
Record storage : Type := mkStorage {
  files : gmap string string;
  writable : bool
}.

(** [os.replace(src, dst)] *)
Definition rename (src dst : string) (fs : gmap string string)
  : gmap string string :=
  match fs !! src with
  | Some content => <[dst := content]> (delete src fs)
  | None => fs
  end.

Section Codec.

(** The parsers and the serialiser are library code: [json.loads] and
    [toml.loads] ([None] stands for their decode errors) and
    [json.dumps]. *)
Variable json_loads : string → option ConfigDocument.
Variable toml_loads : string → option ConfigDocument.
Variable json_dumps : ConfigDocument → string.

(** IMPLEMENTATION_NOTES.md section 2:
<<
  def read_yggdrasil_config():
      try:
          content = f.read()
          try:
              return json.loads(content)  # Try JSON
          except json.JSONDecodeError:
              return toml.loads(content)  # Fall back to TOML
      except FileNotFoundError:
          return mock_config  # Dev mode fallback
>> *)
Definition read_yggdrasil_config (st : storage) : result ConfigDocument :=
  match files st !! CONFIG_PATH with
  | None => Ok mock_config
  | Some content =>
      match json_loads content with
      | Some config => Ok config
      | None =>
          match toml_loads content with
          | Some config => Ok config
          | None => Raise TomlDecodeError
          end
      end
  end.

(** Modelled from the spec: [write_yggdrasil_config], whose body is not
    published (API.md gives its signature and [bool] result). It
    serialises to JSON, writes a sibling temporary file and renames it
    over the configuration file; it returns [False] when the write is
    refused. *)
Definition write_yggdrasil_config (st : storage) (config : ConfigDocument)
  : storage * bool :=
  if writable st then
    let fs1 := <[TEMP_PATH := json_dumps config]> (files st) in
    let fs2 := rename TEMP_PATH CONFIG_PATH fs1 in
    ({| files := fs2; writable := true |}, true)
  else (st, false).

End Codec.

End Store.

(** ** Reload *)

Module Reload.
Import Py.

(** What a captured output stream holds: a [bytes] object, or a [str]
    when the process was run in text mode. *)
Inductive text : Type :=
| Bytes (s : string)
| Str (s : string).

Record CompletedProcess : Type := mkCompleted {
  returncode : Z;
  stdout : text
}.

(** The operating system as [reload_yggdrasil] sees it: the outcome of
    each [subprocess.run] call, which completes with an exit status or
    raises (an executable that is not installed, for instance). The
    signal reaches the process exactly when [kill] exits with status 0. *)
Record system : Type := mkSystem {
  run_pidof : result CompletedProcess;
  run_ps_aux : result CompletedProcess;
  run_kill_HUP : string → result CompletedProcess
}.

Definition payload (t : text) : string :=
  match t with
  | Bytes s => s
  | Str s => s
  end.

Fixpoint lstrip (s : string) : string :=
  match s with
  | EmptyString => EmptyString
  | String c s' => if Ascii.is_space c then lstrip s' else s
  end.

(** [.strip()] *)
Definition strip (s : string) : string :=
  String.rev (lstrip (String.rev (lstrip s))).

(** [.split()]: the words between runs of white space. *)
Definition split : string → list string := String.words.

(** [str.split('\n')] *)
Fixpoint split_newline (s : string) : list string :=
  match s with
  | EmptyString => [EmptyString]
  | String c s' =>
      let rest := split_newline s' in
      if decide (c = "010"%char) then EmptyString :: rest
      else match rest with
           | [] => [String c EmptyString]
           | line :: lines => String c line :: lines
           end
  end.

(** [stdout.split('\n')] with a [str] separator: a [bytes] object raises
    [TypeError]. *)
Definition split_lines (t : text) : result (list string) :=
  match t with
  | Bytes _ => Raise TypeError
  | Str s => Ok (split_newline s)
  end.

(** The loop over the lines of [ps aux]. [Ok None] is the end of the loop
    without a [return]. *)
Fixpoint scan (sys : system) (lines : list string) : result (option bool) :=
  match lines with
  | [] => Ok None
  | line :: rest =>
      if contains "yggdrasil" (lower line) then
        match split line !! 1 with
        | None => Raise IndexError
        | Some pid =>
            match run_kill_HUP sys pid with
            | Raise e => Raise e
            | Ok _ => Ok (Some true)
            end
        end
      else scan sys rest
  end.

(** The body of the [try] block. *)
Definition reload_body (sys : system) : result (option bool) :=
  match run_pidof sys with
  | Raise e => Raise e
  | Ok result =>
      if decide (returncode result = 0%Z) then
        match split (strip (payload (stdout result))) !! 0 with
        | None => Raise IndexError
        | Some pid =>
            match run_kill_HUP sys pid with
            | Raise e => Raise e
            | Ok _ => Ok (Some true)
            end
        end
      else
        match run_ps_aux sys with
        | Raise e => Raise e
        | Ok result =>
            match split_lines (stdout result) with
            | Raise e => Raise e
            | Ok lines => scan sys lines
            end
        end
  end.

(** IMPLEMENTATION_NOTES.md section 6:
<<
  def reload_yggdrasil():
      try:
          result = subprocess.run(['pidof', 'yggdrasil'], capture_output=True)
          if result.returncode == 0:
              pid = result.stdout.strip().split()[0]
              subprocess.run(['kill', '-HUP', pid])
              return True
          result = subprocess.run(['ps', 'aux'], capture_output=True)
          for line in result.stdout.split('\n'):
              if 'yggdrasil' in line.lower():
                  pid = line.split()[1]
                  subprocess.run(['kill', '-HUP', pid])
                  return True
      except Exception:
          return False
>>
    The value is [Some b] for the Python boolean [b] and [None] for
    Python's [None], which a function returns when it ends without a
    [return] statement. *)
Definition reload_yggdrasil (sys : system) : option bool :=
  match reload_body sys with
  | Ok r => r
  | Raise _ => Some false
  end.

(** The reload signal reached process [pid]. *)
Definition delivered (sys : system) (pid : string) : bool :=
  match run_kill_HUP sys pid with
  | Ok result => bool_decide (returncode result = 0%Z)
  | Raise _ => false
  end.

(** A host where [pidof] finds the daemon as process 4242 and [kill] is
    refused: it exits with status 1 and no signal is sent. *)
Definition kill_refused : system :=
  {| run_pidof := Ok {| returncode := 0; stdout := Bytes "4242
" |};
     run_ps_aux := Ok {| returncode := 0; stdout := Bytes "" |};
     run_kill_HUP := λ _, Ok {| returncode := 1; stdout := Bytes "" |} |}.

Definition ps_listing : string :=
  "USER PID %CPU %MEM COMMAND
root 1 0.0 0.1 /sbin/init
root 4242 0.3 1.2 /usr/bin/yggdrasil-go -useconffile /etc/yggdrasil/yggdrasil.conf
".

(** A host where [pidof yggdrasil] has no match (the binary goes by another
    name), [ps aux] lists the daemon and [kill] works. *)
Definition daemon_in_ps (out : string → text) : system :=
  {| run_pidof := Ok {| returncode := 1; stdout := out "" |};
     run_ps_aux := Ok {| returncode := 0; stdout := out ps_listing |};
     run_kill_HUP := λ _, Ok {| returncode := 0; stdout := out "" |} |}.

(** A host on which no daemon runs. *)
Definition no_daemon (out : string → text) : system :=
  {| run_pidof := Ok {| returncode := 1; stdout := out "" |};
     run_ps_aux := Ok {| returncode := 0;
                        stdout := out "USER PID %CPU %MEM COMMAND
root 1 0.0 0.1 /sbin/init
" |};
     run_kill_HUP := λ _, Ok {| returncode := 1; stdout := out "" |} |}.

End Reload.

(** ** Frontend: the API client *)

Module Api.

#[local] Set Warnings "-register-all".

(** A parsed JSON body. Numbers are integers here; object fields are in
    document order. *)
Inductive json : Type :=
| JNull
| JBool (b : bool)
| JNum (n : Z)
| JStr (s : string)
| JArr (items : list json)
| JObj (fields : list (string * json)).

(** What a [throw] carries: an [Error] instance with its name and message,
    or some other value. *)
Inductive thrown : Type :=
| ErrorObj (name message : string)
| NonError.

(** How an awaited call completes. *)
Inductive completion (A : Type) : Type :=
| Return (a : A)
| Throw (t : thrown).

Arguments Return {A} a.
Arguments Throw {A} t.

(** [await response.json()]: the parsed body, or the rejection of the
    parser (a [SyntaxError] for a body that is not JSON). *)
Inductive body_outcome : Type :=
| Parses (data : json)
| ParseFails (t : thrown).

Record response : Type := mkResponse {
  status : Z;
  statusText : string;
  body : body_outcome
}.

(** [response.ok]: the status is in the range 200-299. *)
Definition ok (r : response) : bool :=
  (200 <=? status r)%Z && (status r <=? 299)%Z.

(** [await fetch(url, ...)] *)
Inductive fetch_outcome : Type :=
| Responds (r : response)
| FetchRejects (t : thrown).

Definition API_BASE : string := "/api".

Definition string_of_Z (n : Z) : string :=
  DecimalString.NilZero.string_of_int (Z.to_int n).

Fixpoint join (sep : string) (l : list string) : string :=
  match l with
  | [] => ""
  | [x] => x
  | x :: l' => x +:+ sep +:+ join sep l'
  end.

(** JavaScript [ToString] on a parsed JSON value. *)
Fixpoint to_string (v : json) : string :=
  match v with
  | JNull => "null"
  | JBool true => "true"
  | JBool false => "false"
  | JNum n => string_of_Z n
  | JStr s => s
  | JArr items =>
      join "," (map (fun x => match x with
                              | JNull => ""
                              | _ => to_string x
                              end) items)
  | JObj _ => "[object Object]"
  end.

Fixpoint assoc (key : string) (fields : list (string * json)) : option json :=
  match fields with
  | [] => None
  | (k, v) :: fields' => if decide (k = key) then Some v else assoc key fields'
  end.

(** [data.error]: [None] is [undefined]; reading a property of [null]
    throws a [TypeError]. *)
Definition get_error (data : json) : completion (option json) :=
  match data with
  | JNull =>
      Throw (ErrorObj "TypeError"
               "Cannot read properties of null (reading 'error')")
  | JObj fields => Return (assoc "error" fields)
  | _ => Return None
  end.

(** JavaScript truthiness, as used by [||]. *)
Definition truthy (v : option json) : bool :=
  match v with
  | None => false
  | Some JNull => false
  | Some (JBool b) => b
  | Some (JNum n) => negb (n =? 0)%Z
  | Some (JStr s) => negb (bool_decide (s = ""))
  | Some (JArr _) => true
  | Some (JObj _) => true
  end.

(** [`HTTP ${response.status}: ${response.statusText}`] *)
Definition http_message (r : response) : string :=
  "HTTP " +:+ string_of_Z (status r) +:+ ": " +:+ statusText r.

(** The body of the [try] block of [fetchAPI]. *)
Definition fetch_try (fetch : string → fetch_outcome) (url : string)
  : completion json :=
  match fetch url with
  | FetchRejects t => Throw t
  | Responds r =>
      match body r with
      | ParseFails t => Throw t
      | Parses data =>
          if negb (ok r) then
            match get_error data with
            | Throw t => Throw t
            | Return field =>
                Throw (ErrorObj "Error"
                         (match field with
                          | Some v => if truthy field then to_string v
                                      else http_message r
                          | None => http_message r
                          end))
            end
          else Return data
      end
  end.

(** [fetchAPI]: the [try] block under
    [catch (error) { if (error instanceof Error) throw error;
                     throw new Error('Unknown error occurred'); }]. *)
Definition fetchAPI (fetch : string → fetch_outcome) (endpoint : string)
  : completion json :=
  let url := API_BASE +:+ endpoint in
  match fetch_try fetch url with
  | Return data => Return data
  | Throw (ErrorObj name message) => Throw (ErrorObj name message)
  | Throw NonError => Throw (ErrorObj "Error" "Unknown error occurred")
  end.

(** What the thrown error says, if the call throws. *)
Definition thrown_message {A : Type} (c : completion A) : option string :=
  match c with
  | Return _ => None
  | Throw (ErrorObj _ message) => Some message
  | Throw NonError => None
  end.

(** The message as the specification words it: the body's [error] field
    when that is a non-empty string, otherwise the status line. *)
Definition specified_message (r : response) : string :=
  match body r with
  | Parses (JObj fields) =>
      match assoc "error" fields with
      | Some (JStr s) => if decide (s = "") then http_message r else s
      | _ => http_message r
      end
  | _ => http_message r
  end.

(** A proxy's answer for a backend that is down: status 502 with an HTML
    page, on which [response.json()] rejects. *)
Definition bad_gateway : response :=
  {| status := 502;
     statusText := "Bad Gateway";
     body := ParseFails
               (ErrorObj "SyntaxError"
                  "Unexpected token < in JSON at position 0") |}.

(** The backend's own error answer. *)
Definition socket_missing : response :=
  {| status := 503;
     statusText := "SERVICE UNAVAILABLE";
     body := Parses (JObj [("error", JStr "Yggdrasil socket not found")]) |}.

End Api.

(** ** Frontend: the settings page *)

Module Settings.
Import Api.

Record ExitNodeResponse : Type := mkExitNodeResponse {
  enabled : bool;
  advertised_routes : list string;
  reload_success : bool
}.

(** The state variables of [SettingsPage]. *)
Record page_state : Type := mkPage {
  exitNodeEnabled : bool;
  isLoading : bool;
  isSaving : bool;
  error : option string;
  success : option string
}.

(** A callback handed to [setTimeout]. *)
Inductive timer : Type :=
| ClearSuccess (delay_ms : Z).

Definition setExitNodeEnabled (b : bool) (st : page_state) : page_state :=
  {| exitNodeEnabled := b; isLoading := isLoading st; isSaving := isSaving st;
     error := error st; success := success st |}.

Definition setIsSaving (b : bool) (st : page_state) : page_state :=
  {| exitNodeEnabled := exitNodeEnabled st; isLoading := isLoading st;
     isSaving := b; error := error st; success := success st |}.

Definition setError (e : option string) (st : page_state) : page_state :=
  {| exitNodeEnabled := exitNodeEnabled st; isLoading := isLoading st;
     isSaving := isSaving st; error := e; success := success st |}.

Definition setSuccess (m : option string) (st : page_state) : page_state :=
  {| exitNodeEnabled := exitNodeEnabled st; isLoading := isLoading st;
     isSaving := isSaving st; error := error st; success := m |}.

(** The [catch] block: revert the toggle, record the message. *)
Definition on_error (enabled : bool) (err : thrown) (st : page_state)
  : page_state :=
  setError (Some (match err with
                  | ErrorObj _ message => message
                  | NonError => "Failed to update exit node settings"
                  end))
           (setExitNodeEnabled (negb enabled) st).

(** The [try] block: the awaited request, then the test of
    [result.reload_success], which throws on a failed reload. *)
Definition attempt (setExitNode : bool → completion ExitNodeResponse)
    (enabled : bool) (st : page_state) : completion (page_state * list timer) :=
  match setExitNode enabled with
  | Return result =>
      if reload_success result then
        Return (setSuccess (Some (if enabled
                                  then "Exit node enabled successfully"
                                  else "Exit node disabled successfully")) st,
                [ClearSuccess 3000])
      else Throw (ErrorObj "Error" "Failed to reload Yggdrasil configuration")
  | Throw err => Throw err
  end.

(** [handleExitNodeToggle], given how the [setExitNode] request
    completes. The result is the page state when the handler is done and
    the timers it has started. *)
Definition handleExitNodeToggle
    (setExitNode : bool → completion ExitNodeResponse)
    (enabled : bool) (st : page_state) : page_state * list timer :=
  let st1 :=
    setSuccess None (setError None (setIsSaving true
      (setExitNodeEnabled enabled st))) in
  let after :=
    match attempt setExitNode enabled st1 with
    | Return finished => finished
    | Throw err => (on_error enabled err st1, [])
    end in
  (setIsSaving false (fst after), snd after).

(** [{error && (...)}]: the banner is rendered for a non-empty message. *)
Definition error_banner (st : page_state) : option string :=
  match error st with
  | Some message => if decide (message = "") then None else Some message
  | None => None
  end.

(** The page with the toggle shown off, nothing pending. *)
Definition toggle_off : page_state :=
  {| exitNodeEnabled := false; isLoading := false; isSaving := false;
     error := None; success := None |}.

(** The backend wrote the configuration but could not signal the daemon. *)
Definition reload_failed (enabled : bool) : completion ExitNodeResponse :=
  Return {| enabled := enabled; advertised_routes := ["::/0"];
            reload_success := false |}.

(** [onClick={() => handleExitNodeToggle(!exitNodeEnabled)}] on the
    toggle button. *)
Definition click (setExitNode : bool → completion ExitNodeResponse)
    (st : page_state) : page_state * list timer :=
  handleExitNodeToggle setExitNode (negb (exitNodeEnabled st)) st.

(** Whether the request of a click went through: it resolved and the
    reload succeeded. *)
Definition went_through (outcome : completion ExitNodeResponse) : bool :=
  match outcome with
  | Return result => reload_success result
  | Throw _ => false
  end.

(** [disabled={isSaving || isLoading}] *)
Definition toggle_disabled (st : page_state) : bool :=
  isSaving st || isLoading st.

(** The backend applied and reports the change. *)
Definition applied (enabled : bool) : completion ExitNodeResponse :=
  Return {| enabled := enabled;
            advertised_routes := if enabled then ["::/0"] else [];
            reload_success := true |}.

End Settings.

(** ** Frontend: response types *)

Module ApiTypes.

(** The interfaces of the API client. *)
Module Node.

Record NodeInfo : Type := mkNodeInfo {
  address : string;
  key : string;
  coords : string;
  subnet : string
}.

End Node.

Record Peer : Type := mkPeer {
  address : string;
  key : string;
  port : Z;
  uptime : Z;
  bytes_sent : option Z;
  bytes_recv : option Z
}.

Record PeersResponse : Type := mkPeersResponse {
  peers : list Peer
}.

Record BootstrapResponse : Type := mkBootstrapResponse {
  peers_added : list string;
  total_peers : Z;
  reload_success : bool
}.

(** [err instanceof Error ? err.message : fallback] *)
Definition message_or (fallback : string) (err : Api.thrown) : string :=
  match err with
  | Api.ErrorObj _ message => message
  | Api.NonError => fallback
  end.

(** [Number.MAX_SAFE_INTEGER]: up to this size every integer is a double
    of its own. *)
Definition MAX_SAFE_INTEGER : Z := (2 ^ 53 - 1)%Z.

Definition safe_integer (n : Z) : bool :=
  (- MAX_SAFE_INTEGER <=? n)%Z && (n <=? MAX_SAFE_INTEGER)%Z.

(** Truthiness of a [string | null] state variable. *)
Definition shown (message : option string) : bool :=
  match message with
  | Some m => negb (bool_decide (m = ""))
  | None => false
  end.

End ApiTypes.

(** ** Frontend: the polling hook *)

Module Polling.
Import Api.

Section Hook.

Context {T : Type}.

(** The three state variables of [usePolling]. *)
Record hook_state : Type := mkHook {
  data : option T;
  error : option thrown;
  isLoading : bool
}.

Definition initial : hook_state :=
  {| data := None; error := None; isLoading := true |}.

(** [poll], once the awaited [fetcher()] has settled; [cancelled] is the
    variable of the effect's closure. *)
Definition poll (cancelled : bool) (outcome : completion T) (st : hook_state)
  : hook_state :=
  match outcome with
  | Return result =>
      if negb cancelled
      then {| data := Some result; error := None; isLoading := false |}
      else st
  | Throw err =>
      if negb cancelled
      then {| data := data st;
              error := Some (match err with
                             | ErrorObj name message => ErrorObj name message
                             | NonError => ErrorObj "Error" "Unknown error"
                             end);
              isLoading := false |}
      else st
  end.

(** What happens to a mounted hook: a poll settles, or the effect is
    cleaned up. *)
Inductive event : Type :=
| Settled (outcome : completion T)
| Cleanup.

Record effect_state : Type := mkEffect {
  view : hook_state;
  cancelled : bool;
  interval_set : bool
}.

(** The effect body: [cancelled = false], the interval is set. *)
Definition mounted : effect_state :=
  {| view := initial; cancelled := false; interval_set := true |}.

Definition step (s : effect_state) (e : event) : effect_state :=
  match e with
  | Settled outcome =>
      {| view := poll (cancelled s) outcome (view s);
         cancelled := cancelled s;
         interval_set := interval_set s |}
  | Cleanup =>
      {| view := view s; cancelled := true; interval_set := false |}
  end.

Definition run (s : effect_state) (events : list event) : effect_state :=
  foldl step s events.

(** The value of a poll that succeeded. *)
Definition returned (outcome : completion T) : option T :=
  match outcome with
  | Return result => Some result
  | Throw _ => None
  end.

End Hook.

Arguments hook_state T : clear implicits.
Arguments effect_state T : clear implicits.
Arguments event T : clear implicits.

End Polling.

(** ** Frontend: the peers page *)

Module PeersPage.
Import Api ApiTypes.

Record page_state : Type := mkPage {
  peers : list Peer;
  isLoading : bool;
  error : option string;
  lastUpdate : Z
}.

(** [fetchPeers], once [getPeers()] has settled at time [now]. *)
Definition fetchPeers (cancelled : bool) (now : Z)
    (outcome : completion PeersResponse) (st : page_state) : page_state :=
  match outcome with
  | Return result =>
      if negb cancelled
      then {| peers := ApiTypes.peers result; isLoading := false;
              error := None; lastUpdate := now |}
      else st
  | Throw err =>
      if negb cancelled
      then {| peers := peers st; isLoading := false;
              error := Some (message_or "Failed to fetch peers" err);
              lastUpdate := lastUpdate st |}
      else st
  end.

(** [Math.floor(seconds / 3600)]. The code divides doubles: for a safe
    integer the quotient is rounded by less than 1/3600, so that its floor
    is the floor of the exact quotient, which is what is computed here.
    Any other number is outside the model: [None]. *)
Definition hours (seconds : Z) : option Z :=
  if safe_integer seconds then Some (seconds / 3600)%Z else None.

(** [Math.floor((seconds % 3600) / 60)], for a safe integer as well; [%]
    is exact and takes the sign of the dividend. *)
Definition minutes (seconds : Z) : option Z :=
  if safe_integer seconds then Some (Z.rem seconds 3600 / 60)%Z else None.

Definition formatUptime (seconds : Z) : option string :=
  h ← hours seconds;
  m ← minutes seconds;
  Some (if (0 <? h)%Z
        then string_of_Z h +:+ "h " +:+ string_of_Z m +:+ "m"
        else string_of_Z m +:+ "m").

(** The four conditional blocks under the statistics. *)
Definition loading_shown (st : page_state) : bool := isLoading st.

Definition error_shown (st : page_state) : bool :=
  shown (error st) && negb (isLoading st).

Definition list_shown (st : page_state) : bool :=
  negb (isLoading st) && negb (shown (error st)) && (0 <? length (peers st)).

Definition empty_shown (st : page_state) : bool :=
  negb (isLoading st) && negb (shown (error st)) && (length (peers st) =? 0).

End PeersPage.

(** ** Frontend: the dashboard *)

Module Dashboard.
Import Api ApiTypes.

Record page_state : Type := mkPage {
  nodeInfo : option Node.NodeInfo;
  peers : list Peer;
  isLoading : bool;
  error : option string;
  showWizard : bool;
  showInviteModal : bool;
  lastUpdate : Z
}.

(** [Promise.all([a, b])]: both values, or the rejection that came first. *)
Definition promise_all {A B : Type} (a : completion A) (b : completion B)
    (b_settles_first : bool) : completion (A * B) :=
  match a, b with
  | Return x, Return y => Return (x, y)
  | Throw err, Return _ => Throw err
  | Return _, Throw err => Throw err
  | Throw err_a, Throw err_b => Throw (if b_settles_first then err_b else err_a)
  end.

(** [fetchData], once the two requests have settled at time [now]. The
    effect depends on [showWizard], so a closure that is not cancelled
    reads the current value of it. *)
Definition fetchData (cancelled : bool) (now : Z)
    (outcome : completion (Node.NodeInfo * PeersResponse)) (st : page_state)
  : page_state :=
  match outcome with
  | Return (nodeData, peersData) =>
      if negb cancelled
      then {| nodeInfo := Some nodeData;
              peers := ApiTypes.peers peersData;
              isLoading := false;
              error := None;
              showWizard :=
                if (length (ApiTypes.peers peersData) =? 0)
                   && negb (showWizard st)
                then true else showWizard st;
              showInviteModal := showInviteModal st;
              lastUpdate := now |}
      else st
  | Throw err =>
      if negb cancelled
      then {| nodeInfo := nodeInfo st;
              peers := peers st;
              isLoading := false;
              error := Some (message_or "Failed to fetch data" err);
              showWizard := showWizard st;
              showInviteModal := showInviteModal st;
              lastUpdate := lastUpdate st |}
      else st
  end.

(** A run of polls, each with the [cancelled] flag of its closure, the
    time at which it settles and its outcome. *)
Definition polls_run (st : page_state)
    (polls : list (bool * Z * completion (Node.NodeInfo * PeersResponse)))
  : page_state :=
  foldl (λ st poll, fetchData (fst (fst poll)) (snd (fst poll)) (snd poll) st)
        st polls.

(** [{Math.floor(peer.uptime / 60)}m] in a peer row, for an uptime that
    is a safe integer (the double quotient then floors to the exact one);
    [None] for any other number, which is outside the model. *)
Definition row_uptime (peer : Peer) : option string :=
  if safe_integer (uptime peer)
  then Some (string_of_Z (uptime peer / 60)%Z +:+ "m")
  else None.

(** The page after a first poll that found one peer. *)
Definition online_page : page_state :=
  {| nodeInfo := Some (Node.mkNodeInfo "200:1234::1" "a1b2" "[1 2 3]"
                         "300:1234::/64");
     peers := [mkPeer "200:abcd::1" "peer_key_123" 12345 3600 None None];
     isLoading := false;
     error := None;
     showWizard := false;
     showInviteModal := false;
     lastUpdate := 1000 |}.

(** The page with the wizard open. *)
Definition wizard_page : page_state :=
  {| nodeInfo := None; peers := []; isLoading := false; error := None;
     showWizard := true; showInviteModal := false; lastUpdate := 1000 |}.

End Dashboard.

(** ** Frontend: the first-run wizard *)

Module Wizard.
Import Api ApiTypes.

Record wizard_state : Type := mkWizard {
  isLoading : bool;
  error : option string;
  showPeerInput : bool;
  peerUri : string
}.

(** What the handler sets off besides state updates. *)
Inductive effect : Type :=
| Confetti
| CompleteAfter (delay_ms : Z).

Definition setIsLoading (b : bool) (st : wizard_state) : wizard_state :=
  {| isLoading := b; error := error st;
     showPeerInput := showPeerInput st; peerUri := peerUri st |}.

Definition setError (e : option string) (st : wizard_state) : wizard_state :=
  {| isLoading := isLoading st; error := e;
     showPeerInput := showPeerInput st; peerUri := peerUri st |}.

(** [handleBootstrap], given how the [bootstrap()] request completes. *)
Definition handleBootstrap (bootstrap : completion BootstrapResponse)
    (st : wizard_state) : wizard_state * list effect :=
  let st1 := setError None (setIsLoading true st) in
  match bootstrap with
  | Return result =>
      if 0 <? length (peers_added result)
      then (st1, [Confetti; CompleteAfter 1500])
      else (setIsLoading false
              (setError (Some "No peers were added. Please try again.") st1),
            [])
  | Throw err =>
      (setIsLoading false
         (setError (Some (message_or "Failed to connect to public mesh" err))
            st1), [])
  end.

End Wizard.

(** ** Frontend: the invite modal *)

Module Invite.
Import Api ApiTypes.

Record InviteResponse : Type := mkInviteResponse {
  qr_code : string;
  peering_string : string;
  address : string
}.

Record modal_state : Type := mkModal {
  invite : option InviteResponse;
  isLoading : bool;
  error : option string;
  copied : bool
}.

Definition initial : modal_state :=
  {| invite := None; isLoading := true; error := None; copied := false |}.

(** [loadInvite], given how the [getInvite()] request completes. *)
Definition loadInvite (getInvite : completion InviteResponse)
    (st : modal_state) : modal_state :=
  let st1 := {| invite := invite st; isLoading := true; error := None;
                copied := copied st |} in
  let st2 :=
    match getInvite with
    | Return result =>
        {| invite := Some result; isLoading := isLoading st1;
           error := error st1; copied := copied st1 |}
    | Throw err =>
        {| invite := invite st1; isLoading := isLoading st1;
           error := Some (message_or "Failed to generate invite" err);
           copied := copied st1 |}
    end in
  {| invite := invite st2; isLoading := false; error := error st2;
     copied := copied st2 |}.

(** What the modal renders. *)
Inductive modal_view : Type :=
| Closed
| Spinner
| ErrorRetry (message : string)
| Content (inv : InviteResponse)
| Blank.

Definition render (isOpen : bool) (st : modal_state) : modal_view :=
  if negb isOpen then Closed
  else if isLoading st then Spinner
  else match error st with
       | Some message =>
           if shown (Some message) then ErrorRetry message
           else match invite st with
                | Some inv => Content inv
                | None => Blank
                end
       | None =>
           match invite st with
           | Some inv => Content inv
           | None => Blank
           end
       end.

End Invite.

(** ** Frontend: the status page *)

Module StatusPage.
Import Api ApiTypes.

(** [apiStatus] holds whatever JSON the status endpoint sent; [JNull] is
    the initial [null]. *)
Record page_state : Type := mkPage {
  apiStatus : json;
  loading : bool;
  error : option string
}.

Definition initial : page_state :=
  {| apiStatus := JNull; loading := true; error := None |}.

(** [fetchStatus], given how [fetch('/api/status')] settles. *)
Definition fetchStatus (fetch : string → fetch_outcome) (st : page_state)
  : page_state :=
  let tried : completion json :=
    match fetch "/api/status" with
    | FetchRejects err => Throw err
    | Responds response =>
        if negb (ok response)
        then Throw (ErrorObj "Error" "Failed to fetch status")
        else match body response with
             | ParseFails err => Throw err
             | Parses data => Return data
             end
    end in
  let st1 :=
    match tried with
    | Return data =>
        {| apiStatus := data; loading := loading st; error := None |}
    | Throw err =>
        {| apiStatus := apiStatus st; loading := loading st;
           error := Some (message_or "Unknown error" err) |}
    end in
  {| apiStatus := apiStatus st1; loading := false; error := error st1 |}.

(** [apiStatus?.name] *)
Definition field (name : string) (v : json) : option json :=
  match v with
  | JObj fields => assoc name fields
  | _ => None
  end.

Inductive card_status : Type :=
| Active
| Inactive.

(** [apiStatus?.status === 'ok' ? 'active' : 'inactive'] *)
Definition backend_card (st : page_state) : card_status :=
  match field "status" (apiStatus st) with
  | Some (JStr s) => if decide (s = "ok") then Active else Inactive
  | _ => Inactive
  end.

(** [apiStatus?.yggdrasil_socket === 'connected' ? 'active' : 'inactive'] *)
Definition node_card (st : page_state) : card_status :=
  match field "yggdrasil_socket" (apiStatus st) with
  | Some (JStr s) => if decide (s = "connected") then Active else Inactive
  | _ => Inactive
  end.

(** [`Version ${apiStatus?.backend_version || 'unknown'}`] *)
Definition version_line (st : page_state) : string :=
  "Version " +:+
  match field "backend_version" (apiStatus st) with
  | Some v => if truthy (Some v) then to_string v else "unknown"
  | None => "unknown"
  end.

Inductive page_view : Type :=
| LoadingView
| ErrorCard (message : string)
| Cards (backend node : card_status) (version : string).

(** [loading ? ... : error ? ... : ...] *)
Definition render (st : page_state) : page_view :=
  if loading st then LoadingView
  else match error st with
       | Some message =>
           if shown (Some message) then ErrorCard message
           else Cards (backend_card st) (node_card st) (version_line st)
       | None => Cards (backend_card st) (node_card st) (version_line st)
       end.

End StatusPage.

(** ** The start script *)

Module StartScript.

(** What [start.sh] finds on the host. *)
Record host : Type := mkHost {
  has_docker : bool;
  has_compose : bool;
  port_80_listening : bool;
  reply : option string;
  compose_up : Z
}.

(** [start.sh] under [set -e]: whether [docker compose up --build -d] was
    run, and the exit status of the script. [has_docker] is
    [command -v docker], [has_compose] is [docker compose version],
    [port_80_listening] is the [lsof] test; [reply] is what
    [read -n 1 -r] left in [REPLY], [None] when [read] fails;
    [compose_up] is the exit status of the [up] command. *)
Definition start (h : host) : bool * Z :=
  if negb (has_docker h) then (false, 1%Z)
  else if negb (has_compose h) then (false, 1%Z)
  else if port_80_listening h then
    match reply h with
    | None => (false, 1%Z)
    | Some answer =>
        if negb (bool_decide (answer = "y") || bool_decide (answer = "Y"))
        then (false, 1%Z)
        else (true, compose_up h)
    end
  else (true, compose_up h).

End StartScript.

(** ** Invite: the peering string *)

Module Peering.

(** IMPLEMENTATION_NOTES.md section 4: the text put into the QR code,
    [f"tcp://[{ipv6_address}]:9001"]. *)
Definition peering_string (ipv6_address : string) : string :=
  "tcp://[" +:+ ipv6_address +:+ "]:9001".

End Peering.

(** ** The JSON codec

    [json.dumps] and [json.loads] of the Python library with their
    default settings, on strings, integers, booleans, [null], arrays and
    objects: what the store writes, and what it reads when the file is
    JSON. Strings are sequences of code points below 256. *)

Module Json.
Import Config Api.

#[local] Notation "c ▸ s" := (String c%char s)
  (at level 60, right associativity, only parsing).

Definition dq : ascii := "034"%char.
Definition backslash : ascii := "092"%char.

(** *** [json.dumps] *)

Definition hex_digit (n : N) : ascii :=
  match n with
  | 0%N => "0" | 1%N => "1" | 2%N => "2" | 3%N => "3"
  | 4%N => "4" | 5%N => "5" | 6%N => "6" | 7%N => "7"
  | 8%N => "8" | 9%N => "9" | 10%N => "a" | 11%N => "b"
  | 12%N => "c" | 13%N => "d" | 14%N => "e" | _ => "f"
  end%char.

(** One character of a string literal, as [ensure_ascii=True] writes it:
    the quote and the backslash behind a backslash, the five short
    escapes, the printable ASCII characters as they are, every other
    character as [\u00xx]. A character of the model is a code point
    below 256. *)
Definition escape_char (c : ascii) (k : string) : string :=
  if (c =? dq)%char then backslash ▸ dq ▸ k
  else if (c =? backslash)%char then backslash ▸ backslash ▸ k
  else if (c =? "010")%char then backslash ▸ "n" ▸ k
  else if (c =? "013")%char then backslash ▸ "r" ▸ k
  else if (c =? "009")%char then backslash ▸ "t" ▸ k
  else if (c =? "008")%char then backslash ▸ "b" ▸ k
  else if (c =? "012")%char then backslash ▸ "f" ▸ k
  else if (32 <=? N_of_ascii c)%N && (N_of_ascii c <=? 126)%N then c ▸ k
  else backslash ▸ "u" ▸ "0" ▸ "0"
         ▸ hex_digit (N_of_ascii c / 16) ▸ hex_digit (N_of_ascii c mod 16) ▸ k.

Fixpoint escape (s k : string) : string :=
  match s with
  | EmptyString => k
  | String c s' => escape_char c (escape s' k)
  end.

Definition show_string (s k : string) : string := dq ▸ escape s (dq ▸ k).

(** The text of a value followed by [k], with the default separators
    [", "] and [": "]. *)
Fixpoint show (v : json) (k : string) : string :=
  match v with
  | JNull => "n" ▸ "u" ▸ "l" ▸ "l" ▸ k
  | JBool true => "t" ▸ "r" ▸ "u" ▸ "e" ▸ k
  | JBool false => "f" ▸ "a" ▸ "l" ▸ "s" ▸ "e" ▸ k
  | JNum n => string_of_Z n +:+ k
  | JStr s => show_string s k
  | JArr items =>
      "[" ▸ match items with
            | [] => "]" ▸ k
            | x :: rest =>
                show x (foldr (λ y acc, "," ▸ " " ▸ show y acc) ("]" ▸ k) rest)
            end
  | JObj fields =>
      "{" ▸ match fields with
            | [] => "}" ▸ k
            | p :: rest =>
                show_string (fst p) (":" ▸ " " ▸ show (snd p)
                  (foldr (λ q acc, "," ▸ " " ▸ show_string (fst q)
                                     (":" ▸ " " ▸ show (snd q) acc))
                         ("}" ▸ k) rest))
            end
  end.

(** *** [json.loads] *)

Definition is_ws (c : ascii) : bool :=
  (c =? " ")%char || (c =? "009")%char || (c =? "010")%char
  || (c =? "013")%char.

Fixpoint skip_ws (s : string) : string :=
  match s with
  | EmptyString => EmptyString
  | String c s' => if is_ws c then skip_ws s' else s
  end.

Fixpoint literal (lit s : string) : option string :=
  match lit with
  | EmptyString => Some s
  | String c lit' =>
      match s with
      | EmptyString => None
      | String d s' => if (c =? d)%char then literal lit' s' else None
      end
  end.

Definition hex_value (c : ascii) : option N :=
  let n := N_of_ascii c in
  if (48 <=? n)%N && (n <=? 57)%N then Some (n - 48)%N
  else if (97 <=? n)%N && (n <=? 102)%N then Some (n - 87)%N
  else if (65 <=? n)%N && (n <=? 70)%N then Some (n - 55)%N
  else None.

(** [\uXXXX]: the code point, when it is one of the model's characters. *)
Definition unicode_escape (h1 h2 h3 h4 : ascii) : option ascii :=
  a ← hex_value h1; b ← hex_value h2; c ← hex_value h3; d ← hex_value h4;
  let code := (((a * 16 + b) * 16 + c) * 16 + d)%N in
  if (code <? 256)%N then Some (ascii_of_N code) else None.

Definition cons_char (c : ascii) (r : option (string * string))
  : option (string * string) :=
  '(w, rest) ← r; Some (String c w, rest).

(** The characters of a string literal after its opening quote, up to the
    closing one, and what follows it. Control characters must be
    escaped. *)
Fixpoint read_chars (s : string) : option (string * string) :=
  match s with
  | EmptyString => None
  | String c s1 =>
      if (c =? dq)%char then Some (EmptyString, s1)
      else if (c =? backslash)%char then
        match s1 with
        | EmptyString => None
        | String e s2 =>
            if (e =? dq)%char then cons_char dq (read_chars s2)
            else if (e =? backslash)%char then cons_char backslash (read_chars s2)
            else if (e =? "/")%char then cons_char "/" (read_chars s2)
            else if (e =? "n")%char then cons_char "010" (read_chars s2)
            else if (e =? "r")%char then cons_char "013" (read_chars s2)
            else if (e =? "t")%char then cons_char "009" (read_chars s2)
            else if (e =? "b")%char then cons_char "008" (read_chars s2)
            else if (e =? "f")%char then cons_char "012" (read_chars s2)
            else if (e =? "u")%char then
              match s2 with
              | String h1 (String h2 (String h3 (String h4 s3))) =>
                  match unicode_escape h1 h2 h3 h4 with
                  | Some u => cons_char u (read_chars s3)
                  | None => None
                  end
              | _ => None
              end
            else None
        end
      else if (N_of_ascii c <? 32)%N then None
      else cons_char c (read_chars s1)
  end.

Definition digit (c : ascii) : option (Decimal.uint → Decimal.uint) :=
  if (c =? "0")%char then Some Decimal.D0
  else if (c =? "1")%char then Some Decimal.D1
  else if (c =? "2")%char then Some Decimal.D2
  else if (c =? "3")%char then Some Decimal.D3
  else if (c =? "4")%char then Some Decimal.D4
  else if (c =? "5")%char then Some Decimal.D5
  else if (c =? "6")%char then Some Decimal.D6
  else if (c =? "7")%char then Some Decimal.D7
  else if (c =? "8")%char then Some Decimal.D8
  else if (c =? "9")%char then Some Decimal.D9
  else None.

(** The longest run of digits at the head of [s]. *)
Fixpoint read_uint (s : string) : Decimal.uint * string :=
  match s with
  | EmptyString => (Decimal.Nil, EmptyString)
  | String c s' =>
      match digit c with
      | Some d => (d (read_uint s').1, (read_uint s').2)
      | None => (Decimal.Nil, s)
      end
  end.

(** An integer; fractions and exponents are not read. *)
Definition read_number (s : string) : option (Z * string) :=
  match s with
  | EmptyString => None
  | String c s1 =>
      if (c =? "-")%char then
        match read_uint s1 with
        | (Decimal.Nil, _) => None
        | (u, rest) => Some (Z.of_int (Decimal.Neg u), rest)
        end
      else
        match read_uint s with
        | (Decimal.Nil, _) => None
        | (u, rest) => Some (Z.of_int (Decimal.Pos u), rest)
        end
  end.

(** A value at the head of [s], after any white space, and what follows
    it. The members of an object come in document order, duplicate keys
    included. [fuel] bounds the number of values read. *)
Fixpoint parse_value (fuel : nat) (s : string) {struct fuel}
  : option (json * string) :=
  match fuel with
  | 0 => None
  | S fuel' =>
      match skip_ws s with
      | EmptyString => None
      | String c s1 =>
          if (c =? dq)%char then
            '(w, rest) ← read_chars s1; Some (JStr w, rest)
          else if (c =? "[")%char then
            match skip_ws s1 with
            | EmptyString => None
            | String c2 rest =>
                if (c2 =? "]")%char then Some (JArr [], rest)
                else '(items, rest') ← parse_elements fuel' s1;
                     Some (JArr items, rest')
            end
          else if (c =? "{")%char then
            match skip_ws s1 with
            | EmptyString => None
            | String c2 rest =>
                if (c2 =? "}")%char then Some (JObj [], rest)
                else '(fields, rest') ← parse_members fuel' s1;
                     Some (JObj fields, rest')
            end
          else if (c =? "t")%char then
            rest ← literal "rue" s1; Some (JBool true, rest)
          else if (c =? "f")%char then
            rest ← literal "alse" s1; Some (JBool false, rest)
          else if (c =? "n")%char then
            rest ← literal "ull" s1; Some (JNull, rest)
          else
            '(n, rest) ← read_number (String c s1); Some (JNum n, rest)
      end
  end
with parse_elements (fuel : nat) (s : string) {struct fuel}
  : option (list json * string) :=
  match fuel with
  | 0 => None
  | S fuel' =>
      '(v, s1) ← parse_value fuel' s;
      match skip_ws s1 with
      | EmptyString => None
      | String c s2 =>
          if (c =? ",")%char then
            '(items, rest) ← parse_elements fuel' s2; Some (v :: items, rest)
          else if (c =? "]")%char then Some ([v], s2)
          else None
      end
  end
with parse_members (fuel : nat) (s : string) {struct fuel}
  : option (list (string * json) * string) :=
  match fuel with
  | 0 => None
  | S fuel' =>
      match skip_ws s with
      | EmptyString => None
      | String c s0 =>
          if (c =? dq)%char then
            '(key, s1) ← read_chars s0;
            match skip_ws s1 with
            | EmptyString => None
            | String c1 s2 =>
                if (c1 =? ":")%char then
                  '(v, s3) ← parse_value fuel' s2;
                  match skip_ws s3 with
                  | EmptyString => None
                  | String c3 s4 =>
                      if (c3 =? ",")%char then
                        '(fields, rest) ← parse_members fuel' s4;
                        Some ((key, v) :: fields, rest)
                      else if (c3 =? "}")%char then Some ([(key, v)], s4)
                      else None
                  end
                else None
            end
          else None
      end
  end.

(** No digit at the head of [k]: a number printed before [k] ends where
    [k] begins. *)
Definition no_digit (k : string) : Prop :=
  match k with
  | EmptyString => True
  | String c _ => digit c = None
  end.

(** The characters a number starts with. *)
Definition number_head (c : ascii) : bool :=
  (c =? "-")%char || bool_decide (is_Some (digit c)).

(** A whole text: one value, and white space at most after it. *)
Definition parse (s : string) : option json :=
  '(v, rest) ← parse_value (String.length s) s;
  if decide (skip_ws rest = EmptyString) then Some v else None.

(** The number of values in a value, itself included, each element or
    member of a collection counting once more. *)
Fixpoint size (v : json) : nat :=
  match v with
  | JArr items => S (foldr (λ x n, S (size x + n)) 0 items)
  | JObj fields => S (foldr (λ p n, S (size (snd p) + n)) 0 fields)
  | _ => 1
  end.

(** A value is read back from its text whatever follows it, with fuel
    for its size. *)
Definition reads_back (v : json) : Prop :=
  ∀ fuel k, no_digit k → size v ≤ fuel →
            parse_value fuel (show v k) = Some (v, k).

(** *** The dictionary of a document *)

(** [d[key] = v] on the items of a dictionary: a key that is present
    keeps its place and takes the new value. *)
Fixpoint dict_set (key : string) (v : json) (items : list (string * json))
  : list (string * json) :=
  match items with
  | [] => [(key, v)]
  | (k, w) :: items' =>
      if decide (k = key) then (k, v) :: items'
      else (k, w) :: dict_set key v items'
  end.

(** The dictionary Python builds from the members of an object: of a key
    written twice the last value is kept. *)
Definition dict_of (fields : list (string * json)) : list (string * json) :=
  foldl (λ items p, dict_set (fst p) (snd p) items) [] fields.

Definition as_string (v : json) : option string :=
  match v with JStr s => Some s | _ => None end.

Definition as_bool (v : json) : option bool :=
  match v with JBool b => Some b | _ => None end.

Definition as_strings (v : json) : option (list string) :=
  match v with JArr items => mapM as_string items | _ => None end.

Definition strings (l : list string) : json := JArr (JStr <$> l).

Definition routing_keys : list string :=
  ["Enable"; "IPv6Destinations"; "IPv6Sources"; "IPv4Destinations";
   "IPv4Sources"].

Definition routing_to_json (tr : tunnel_routing) : json :=
  JObj [("Enable", JBool (Enable tr));
        ("IPv6Destinations", strings (IPv6Destinations tr));
        ("IPv6Sources", strings (IPv6Sources tr));
        ("IPv4Destinations", strings (IPv4Destinations tr));
        ("IPv4Sources", strings (IPv4Sources tr))].

(** The routing block of a dictionary with exactly the five keys. *)
Definition routing_of_json (v : json) : option tunnel_routing :=
  match v with
  | JObj fields =>
      let items := dict_of fields in
      if forallb (λ p, bool_decide (fst p ∈ routing_keys)) items then
        en ← assoc "Enable" items ≫= as_bool;
        d6 ← assoc "IPv6Destinations" items ≫= as_strings;
        s6 ← assoc "IPv6Sources" items ≫= as_strings;
        d4 ← assoc "IPv4Destinations" items ≫= as_strings;
        s4 ← assoc "IPv4Sources" items ≫= as_strings;
        Some {| Enable := en; IPv6Destinations := d6; IPv6Sources := s6;
                IPv4Destinations := d4; IPv4Sources := s4 |}
      else None
  | _ => None
  end.

(** The keys a [ConfigDocument] holds in fields of its own. *)
Definition known_keys : list string :=
  ["Peers"; "TunnelRouting"; "AdminListen"].

Definition other_to_json (p : string * string) : string * json :=
  (fst p, JStr (snd p)).

Definition other_of_json (p : string * json) : option (string * string) :=
  s ← as_string (snd p); Some (fst p, s).

(** The dictionary of a document: the known keys, then the others. *)
Definition to_json (config : ConfigDocument) : json :=
  JObj (("Peers", strings (Peers config))
        :: match TunnelRouting config with
           | Some tr => [("TunnelRouting", routing_to_json tr)]
           | None => []
           end
        ++ ("AdminListen", JStr (AdminListen config))
        :: (other_to_json <$> Other config)).

(** The document of a dictionary; [None] for a value that the record
    cannot hold. *)
Definition of_json (v : json) : option ConfigDocument :=
  match v with
  | JObj fields =>
      let items := dict_of fields in
      peers ← assoc "Peers" items ≫= as_strings;
      tr ← match assoc "TunnelRouting" items with
           | Some block => Some <$> routing_of_json block
           | None => Some None
           end;
      admin ← assoc "AdminListen" items ≫= as_string;
      other ← mapM other_of_json
                (filter (λ p, fst p ∉ known_keys) items);
      Some {| Peers := peers; TunnelRouting := tr;
              AdminListen := admin; Other := other |}
  | _ => None
  end.

(** A document is a dictionary: no key twice, and the known keys in
    their fields only. *)
Definition valid (config : ConfigDocument) : bool :=
  bool_decide (NoDup (Other config).*1)
  && forallb (λ k, bool_decide (k ∉ known_keys)) (Other config).*1.

(** Modelled from the spec: [json.dumps(config)], the JSON text that a
    save writes. The library is not part of the repository; the text is
    the one Python prints by default. *)
Definition dumps (config : ConfigDocument) : string :=
  show (to_json config) EmptyString.

(** Modelled from the spec: [json.loads(content)], the reading that a load
    tries first. [None] stands for [json.JSONDecodeError], and for a
    dictionary that the record cannot hold. *)
Definition loads (s : string) : option ConfigDocument :=
  parse s ≫= of_json.

End Json.

(** ** A small codec for running the store

    A printer and two readers for configuration documents in one fixed
    layout, standing in for [json.dumps], [json.loads] and [toml.loads] when
    the store is run on concrete files. *)

Module Fixture.
Import Config.

Definition dq : string := String "034"%char EmptyString.

Definition quote (s : string) : string := dq +:+ s +:+ dq.

Fixpoint expect (lit s : string) : option string :=
  match lit with
  | EmptyString => Some s
  | String c lit' =>
      match s with
      | EmptyString => None
      | String d s' => if decide (c = d) then expect lit' s' else None
      end
  end.

Fixpoint until_quote (s : string) : option (string * string) :=
  match s with
  | EmptyString => None
  | String c s' =>
      if decide (c = "034"%char) then Some (EmptyString, s')
      else '(w, rest) ← until_quote s'; Some (String c w, rest)
  end.

Definition read_quoted (s : string) : option (string * string) :=
  s1 ← expect dq s; until_quote s1.

Fixpoint read_items (fuel : nat) (s : string) : option (list string * string) :=
  match fuel with
  | 0 => None
  | S fuel' =>
      '(x, s1) ← read_quoted s;
      match expect ", " s1 with
      | Some s2 => '(xs, s3) ← read_items fuel' s2; Some (x :: xs, s3)
      | None => s2 ← expect "]" s1; Some ([x], s2)
      end
  end.

Definition read_list (s : string) : option (list string * string) :=
  s1 ← expect "[" s;
  match expect "]" s1 with
  | Some s2 => Some ([], s2)
  | None => read_items (String.length s1) s1
  end.

Definition read_bool (s : string) : option (bool * string) :=
  match expect "true" s with
  | Some s1 => Some (true, s1)
  | None => s1 ← expect "false" s; Some (false, s1)
  end.

Definition read_field {A : Type} (key : string)
    (reader : string → option (A * string)) (s : string)
  : option (A * string) :=
  s1 ← expect (quote key +:+ ": ") s; reader s1.

Definition show_list (l : list string) : string :=
  "[" +:+ Api.join ", " (quote <$> l) +:+ "]".

Definition show_bool (b : bool) : string := if b then "true" else "false".

Definition show_routing (tr : tunnel_routing) : string :=
  "{" +:+ quote "Enable" +:+ ": " +:+ show_bool (Enable tr) +:+ ", "
      +:+ quote "IPv6Destinations" +:+ ": " +:+ show_list (IPv6Destinations tr) +:+ ", "
      +:+ quote "IPv6Sources" +:+ ": " +:+ show_list (IPv6Sources tr) +:+ ", "
      +:+ quote "IPv4Destinations" +:+ ": " +:+ show_list (IPv4Destinations tr) +:+ ", "
      +:+ quote "IPv4Sources" +:+ ": " +:+ show_list (IPv4Sources tr) +:+ "}".

Definition read_routing (s : string) : option (tunnel_routing * string) :=
  s0 ← expect "{" s;
  '(en, s1) ← read_field "Enable" read_bool s0;
  s2 ← expect ", " s1;
  '(d6, s3) ← read_field "IPv6Destinations" read_list s2;
  s4 ← expect ", " s3;
  '(s6, s5) ← read_field "IPv6Sources" read_list s4;
  s6' ← expect ", " s5;
  '(d4, s7) ← read_field "IPv4Destinations" read_list s6';
  s8 ← expect ", " s7;
  '(s4', s9) ← read_field "IPv4Sources" read_list s8;
  s10 ← expect "}" s9;
  Some ({| Enable := en; IPv6Destinations := d6; IPv6Sources := s6;
           IPv4Destinations := d4; IPv4Sources := s4' |}, s10).

(** The printer; it writes the three known keys. *)
Definition dumps (config : ConfigDocument) : string :=
  "{" +:+ quote "Peers" +:+ ": " +:+ show_list (Peers config) +:+ ", "
      +:+ match TunnelRouting config with
          | Some tr => quote "TunnelRouting" +:+ ": " +:+ show_routing tr +:+ ", "
          | None => ""
          end
      +:+ quote "AdminListen" +:+ ": " +:+ quote (AdminListen config) +:+ "}".

(** The reader of what [dumps] prints. *)
Definition loads (s : string) : option ConfigDocument :=
  s0 ← expect "{" s;
  '(peers, s1) ← read_field "Peers" read_list s0;
  s2 ← expect ", " s1;
  '(tr, s3) ←
    match read_field "TunnelRouting" read_routing s2 with
    | Some (tr, s') => s'' ← expect ", " s'; Some (Some tr, s'')
    | None => Some (None, s2)
    end;
  '(admin, s4) ← read_field "AdminListen" read_quoted s3;
  s5 ← expect "}" s4;
  if decide (s5 = "") then
    Some {| Peers := peers; TunnelRouting := tr;
            AdminListen := admin; Other := [] |}
  else None.

(** A reader of a two-line TOML file, [Peers = [...]] and
    [AdminListen = "..."], with a leading comment line allowed. *)
Definition toml_loads (s : string) : option ConfigDocument :=
  let s0 := match expect "# yggdrasil
" s with
            | Some rest => rest
            | None => s
            end in
  s1 ← expect "Peers = " s0;
  '(peers, s2) ← read_list s1;
  s3 ← expect "
AdminListen = " s2;
  '(admin, s4) ← read_quoted s3;
  if decide (s4 = "
") then
    Some {| Peers := peers; TunnelRouting := None;
            AdminListen := admin; Other := [] |}
  else None.

Definition sample_config : ConfigDocument :=
  {| Peers := ["tcp://a:9001"; "tcp://b:9001"];
     TunnelRouting :=
       Some {| Enable := true;
               IPv6Destinations := ["::/0"];
               IPv6Sources := [];
               IPv4Destinations := [];
               IPv4Sources := [] |};
     AdminListen := "unix:///var/run/yggdrasil/yggdrasil.sock";
     Other := [] |}.

Definition toml_text : string :=
  "# yggdrasil
Peers = [" +:+ quote "tcp://a:9001" +:+ "]
AdminListen = " +:+ quote "unix:///var/run/yggdrasil/yggdrasil.sock" +:+ "
".

(** The document of [toml_text]. *)
Definition toml_config : ConfigDocument :=
  {| Peers := ["tcp://a:9001"];
     TunnelRouting := None;
     AdminListen := "unix:///var/run/yggdrasil/yggdrasil.sock";
     Other := [] |}.

(** A document with characters that the JSON text escapes. *)
Definition escaped_config : ConfigDocument :=
  {| Peers := ["tls://[2001:db8::1]:443"];
     TunnelRouting := Some default_tunnel_routing;
     AdminListen := "none";
     Other := [("NodeInfoName",
                String "034" (String "092" (String "010" (String "233" "caf"))));
               ("PrivateKey", "00ff")] |}.

Definition toml_storage : Store.storage :=
  {| Store.files := {[ Store.CONFIG_PATH := toml_text ]};
     Store.writable := true |}.

Definition empty_storage : Store.storage :=
  {| Store.files := ∅; Store.writable := true |}.

End Fixture.

(** * Properties *)

(** ** Exit-node toggle *)

Section ExitNodeProperties.
Import Config ExitNode.

Lemma truthy_app_singleton (l : list string) (x : string) :
  truthy (l ++ [x]) = true.
Proof. destruct l; reflexivity. Qed.

Lemma truthy_elem_of (l : list string) (x : string) :
  x ∈ l → truthy l = true.
Proof. destruct l as [|y l]; [by intros ?%elem_of_nil | done]. Qed.

Lemma list_remove_not_in (x : string) (l : list string) :
  x ∉ l → list_remove x l = l.
Proof.
  induction l as [|y l IH]; simpl; [done|].
  intros Hnot. case_decide as Heq.
  - subst. exfalso. apply Hnot. left.
  - f_equal. apply IH. intros Hin. apply Hnot. by right.
Qed.

(** Without duplicates, nothing equal to [x] is left behind. *)
Lemma list_remove_NoDup (x : string) (l : list string) :
  NoDup l → x ∉ list_remove x l.
Proof.
  induction 1 as [|y l Hy Hnd IH]; simpl.
  - apply not_elem_of_nil.
  - case_decide as Heq; [by subst|].
    intros [Hxy|Hin]%elem_of_cons; [by subst | by apply IH].
Qed.

Lemma toggle_on_spec (tr : tunnel_routing) :
  toggle true tr =
    {| Enable := true;
       IPv6Destinations :=
         if bool_decide (DEFAULT_ROUTE ∈ IPv6Destinations tr)
         then IPv6Destinations tr
         else IPv6Destinations tr ++ [DEFAULT_ROUTE];
       IPv6Sources := IPv6Sources tr;
       IPv4Destinations := IPv4Destinations tr;
       IPv4Sources := IPv4Sources tr |}.
Proof.
  unfold toggle. simpl. by case_bool_decide.
Qed.

Lemma toggle_off_spec (tr : tunnel_routing) :
  let tr1 := set_IPv6Destinations
               (list_remove DEFAULT_ROUTE (IPv6Destinations tr)) tr in
  toggle false tr = set_Enable (any_route tr1 && Enable tr) tr1.
Proof.
  unfold toggle. simpl. case_bool_decide as Hin.
  - destruct (any_route _); simpl; [|done].
    by destruct tr.
  - rewrite (list_remove_not_in _ _ Hin).
    assert (set_IPv6Destinations (IPv6Destinations tr) tr = tr) as ->
      by by destruct tr.
    destruct (any_route tr); simpl; by destruct tr.
Qed.

Lemma any_route_set_Enable (b : bool) (tr : tunnel_routing) :
  any_route (set_Enable b tr) = any_route tr.
Proof. reflexivity. Qed.

Lemma toggle_invariant (enabled : bool) (tr : tunnel_routing) :
  implb (Enable (toggle enabled tr)) (any_route (toggle enabled tr)) = true.
Proof.
  destruct enabled.
  - rewrite toggle_on_spec. unfold any_route, any. simpl.
    case_bool_decide as Hin.
    + by rewrite (truthy_elem_of _ _ Hin).
    + by rewrite truthy_app_singleton.
  - rewrite toggle_off_spec. cbv zeta.
    rewrite any_route_set_Enable.
    destruct (any_route _); [|done].
    by destruct (Enable tr).
Qed.

(** C1. After the exit-node toggle, switched on or off, routing is
    enabled only if one of the four route lists is non-empty, whatever the
    document was before, with or without a routing block; and switching it
    on in a document without a routing block gives [enabled = true] with
    the advertised routes ["::/0"]. *)
Theorem set_exit_node_invariant (enabled : bool) (config : ConfigDocument) :
  routing_invariant (set_exit_node enabled config) = true ∧
  ∀ (peers : list string) (admin : string) (other : list (string * string)),
    response_fields
      (set_exit_node true
         {| Peers := peers; TunnelRouting := None;
            AdminListen := admin; Other := other |})
    = (true, ["::/0"]).
Proof.
  split.
  - unfold routing_invariant.
    change (routing_block (set_exit_node enabled config))
      with (toggle enabled (routing_block config)).
    apply toggle_invariant.
  - reflexivity.
Qed.

(** C2, as stated, fails: in [lan_only] a route remains after the
    exit-node toggle is switched off, and [Enable] is not true. *)
Lemma set_exit_node_off_lan_only :
  any_route (routing_block (set_exit_node false lan_only)) = true ∧
  Enable (routing_block (set_exit_node false lan_only)) = false.
Proof. split; reflexivity. Qed.

(** C2, amended. Switching the exit node off removes the first ["::/0"]
    from [IPv6Destinations] (the only one when the list has no
    duplicates), keeps the other three route lists, and then sets
    [Enable] to false when all four lists are empty; when a route remains
    [Enable] keeps the value it had. *)
Theorem set_exit_node_off (config : ConfigDocument) :
  let before := routing_block config in
  let after := routing_block (set_exit_node false config) in
  IPv6Destinations after = list_remove DEFAULT_ROUTE (IPv6Destinations before) ∧
  IPv6Sources after = IPv6Sources before ∧
  IPv4Destinations after = IPv4Destinations before ∧
  IPv4Sources after = IPv4Sources before ∧
  Enable after = (if any_route after then Enable before else false) ∧
  (NoDup (IPv6Destinations before) → DEFAULT_ROUTE ∉ IPv6Destinations after).
Proof.
  cbv zeta.
  change (routing_block (set_exit_node false config))
    with (toggle false (routing_block config)).
  rewrite toggle_off_spec. cbv zeta.
  rewrite any_route_set_Enable.
  split; [done|]. do 4 (split; [done|]).
  apply list_remove_NoDup.
Qed.

Lemma set_exit_node_off_gateway :
  NoDup (IPv6Destinations (routing_block gateway_with_lan)) ∧
  (DEFAULT_ROUTE
     ∉ IPv6Destinations (routing_block (set_exit_node false gateway_with_lan))) ∧
  Enable (routing_block (set_exit_node false gateway_with_lan)) = true.
Proof.
  assert (NoDup (IPv6Destinations (routing_block gateway_with_lan))) as Hnd
    by apply NoDup_singleton.
  split; [exact Hnd|].
  destruct (set_exit_node_off gateway_with_lan)
    as (_ & _ & _ & _ & Henable & Hgone).
  split; [exact (Hgone Hnd) | exact Henable].
Defined.

(** The two cases of the specification: the default route alone, and the
    default route next to another one. *)
Example set_exit_node_off_cases :
  response_fields (set_exit_node false exit_only) = (false, []) ∧
  response_fields (set_exit_node false gateway_with_lan) = (true, []).
Proof. split; reflexivity. Qed.

(** C8. Switching the exit node on twice gives the same document, so the
    same [IPv6Destinations] and the same [Enable], as switching it on
    once. *)
Theorem set_exit_node_on_idempotent (config : ConfigDocument) :
  set_exit_node true (set_exit_node true config) = set_exit_node true config.
Proof.
  unfold set_exit_node at 1 3. cbn [Peers AdminListen Other].
  f_equal. f_equal.
  change (routing_block (set_exit_node true config))
    with (toggle true (routing_block config)).
  rewrite !toggle_on_spec. cbn [IPv6Destinations IPv6Sources IPv4Destinations IPv4Sources].
  f_equal.
  rewrite (bool_decide_eq_true_2 (DEFAULT_ROUTE ∈ _)); [done|].
  case_bool_decide as Hin; [done|].
  apply elem_of_app. right. by apply list_elem_of_singleton.
Qed.

End ExitNodeProperties.

(** ** Peer bootstrap *)

Section BootstrapProperties.
Import Config Py Bootstrap.

Lemma draw_length {A : Type} (k : nat) :
  ∀ (picks : list nat) (pool : list A),
    k ≤ length pool → length (draw picks pool k) = k.
Proof.
  induction k as [|k IH]; intros picks pool Hk; simpl; [done|].
  assert (hd 0 picks mod length pool < length pool) as Hj
    by (apply Nat.mod_upper_bound; lia).
  destruct (lookup_lt_is_Some_2 pool _ Hj) as [x Hx].
  rewrite Hx. simpl. f_equal. apply IH.
  rewrite length_delete by eauto. lia.
Qed.

(** The draw is without replacement: as a multiset, the sample is part
    of the pool. *)
Lemma draw_submseteq {A : Type} (k : nat) :
  ∀ (picks : list nat) (pool : list A), draw picks pool k ⊆+ pool.
Proof.
  induction k as [|k IH]; intros picks pool; simpl.
  - apply submseteq_nil_l.
  - destruct (pool !! _) as [x|] eqn:Hx; [|apply submseteq_nil_l].
    trans (x :: delete (hd 0 picks mod length pool) pool).
    + apply submseteq_skip, IH.
    + apply Permutation_submseteq. symmetry. by apply delete_Permutation.
Qed.

Lemma NoDup_submseteq_l {A : Type} (l k : list A) :
  l ⊆+ k → NoDup k → NoDup l.
Proof.
  intros [rest Hrest]%submseteq_Permutation Hnd.
  rewrite Hrest in Hnd. by apply NoDup_app in Hnd as [? _].
Qed.

(** With at least [TARGET_COUNT] available peers the selection returns
    exactly that many, drawn without replacement. *)
Lemma select_peers_enough (picks : list nat) (available : list string) :
  TARGET_COUNT ≤ length available →
  ∃ selected,
    select_peers picks available = Ok selected ∧
    length selected = TARGET_COUNT ∧
    selected ⊆+ available ∧
    (NoDup available → NoDup selected).
Proof.
  intros Hlen. unfold select_peers, random_sample.
  rewrite decide_True by done.
  eexists. split; [done|]. split; [by apply draw_length|].
  split; [apply draw_submseteq|].
  intros Hnd. eapply NoDup_submseteq_l; [|done]. apply draw_submseteq.
Qed.

(** With fewer the call raises, whatever the generator does. *)
Lemma select_peers_short (picks : list nat) (available : list string) :
  length available < TARGET_COUNT →
  select_peers picks available = Raise ValueError.
Proof.
  intros Hlen. unfold select_peers, random_sample.
  rewrite decide_False by lia. done.
Qed.

Lemma foldl_append_if_new (existing_peers : gset string)
    (selected_peers : list string) :
  ∀ peers : list string,
    foldl (append_if_new existing_peers) peers selected_peers
    = peers ++ filter (λ peer, peer ∉ existing_peers) selected_peers.
Proof.
  induction selected_peers as [|peer rest IH]; intros peers; simpl.
  - by rewrite app_nil_r.
  - rewrite IH. unfold append_if_new. rewrite filter_cons.
    case_bool_decide as Hin; simpl.
    + by rewrite decide_False by (by intros Hnot).
    + rewrite decide_True by done. by rewrite <- app_assoc.
Qed.

Lemma merge_peers_spec (config_peers selected_peers : list string) :
  merge_peers config_peers selected_peers
  = config_peers ++ filter (λ peer, peer ∉ config_peers) selected_peers.
Proof.
  unfold merge_peers. rewrite foldl_append_if_new. f_equal.
  apply list_filter_iff. intros peer. by rewrite elem_of_list_to_set.
Qed.

Lemma appended_spec (config_peers selected_peers : list string) :
  appended config_peers selected_peers
  = filter (λ peer, peer ∉ config_peers) selected_peers.
Proof.
  unfold appended. rewrite merge_peers_spec. apply drop_app_length.
Qed.

(** C3. Whenever bootstrap returns, no URI it reports as added was among
    the peers of the document before: the added URIs are the selected
    ones that are not (as exact strings) among the existing peers, in
    selection order, and they are what is appended to the peer list. *)
Theorem bootstrap_adds_only_new (more_regions : list string)
    (picks : list nat) (peer_data : list (string * list string))
    (config : ConfigDocument) (r : bootstrap_result) :
  bootstrap more_regions picks peer_data config = Ok r →
  (list_to_set (peers_added r) ∩ list_to_set (Peers config) : gset string) = ∅ ∧
  Peers (new_config r) = Peers config ++ peers_added r ∧
  total_peers r = length (Peers config) + length (peers_added r) ∧
  ∃ selected_peers,
    select_peers picks (available_peers more_regions peer_data)
      = Ok selected_peers ∧
    peers_added r = filter (λ peer, peer ∉ Peers config) selected_peers.
Proof.
  unfold bootstrap.
  destruct (select_peers _ _) as [selected_peers|e]; [|done].
  intros Hr. injection Hr as <-. cbn [peers_added new_config total_peers Peers].
  rewrite appended_spec, merge_peers_spec.
  split; [|split; [done|split; [by rewrite length_app|by eexists]]].
  apply set_eq. intros peer.
  rewrite elem_of_intersection, !elem_of_list_to_set, list_elem_of_filter.
  split.
  - intros [[Hnot _] Hin]. by destruct Hnot.
  - by intros ?%elem_of_empty.
Qed.

Lemma bootstrap_sample :
  bootstrap [] [0; 0; 0] sample_peer_data one_peer_config
  = Ok {| new_config :=
            {| Peers := ["tcp://b:9001"; "tcp://a:9001"; "tcp://c:9001"];
               TunnelRouting := None;
               AdminListen := "unix:///var/run/yggdrasil/yggdrasil.sock";
               Other := [] |};
          peers_added := ["tcp://a:9001"; "tcp://c:9001"];
          total_peers := 3 |} ∧
  (list_to_set ["tcp://a:9001"; "tcp://c:9001"]
     ∩ list_to_set (Peers one_peer_config) : gset string) = ∅.
Proof.
  split; [vm_compute; reflexivity|].
  apply (bootstrap_adds_only_new [] [0; 0; 0] sample_peer_data one_peer_config
           {| new_config :=
                {| Peers := ["tcp://b:9001"; "tcp://a:9001"; "tcp://c:9001"];
                   TunnelRouting := None;
                   AdminListen := "unix:///var/run/yggdrasil/yggdrasil.sock";
                   Other := [] |};
              peers_added := ["tcp://a:9001"; "tcp://c:9001"];
              total_peers := 3 |}).
  vm_compute; reflexivity.
Defined.

(** C4. With fewer than [TARGET_COUNT] eligible candidates bootstrap does
    not select them all: [random.sample] is asked for three, and the
    operation raises [ValueError], for every generator state and every
    document. *)
Theorem bootstrap_short_raises (more_regions : list string)
    (picks : list nat) (peer_data : list (string * list string))
    (config : ConfigDocument) :
  length (available_peers more_regions peer_data) < TARGET_COUNT →
  bootstrap more_regions picks peer_data config = Raise ValueError.
Proof.
  intros Hshort. unfold bootstrap.
  by rewrite (select_peers_short picks _ Hshort).
Qed.

(** Two eligible candidates: nothing is added. *)
Lemma bootstrap_two_candidates :
  available_peers [] two_candidates = ["tcp://a:9001"; "tcp://b:9001"] ∧
  bootstrap [] [0; 0; 0] two_candidates one_peer_config = Raise ValueError.
Proof.
  split; [reflexivity|].
  apply (bootstrap_short_raises [] [0; 0; 0] two_candidates one_peer_config).
  vm_compute. lia.
Defined.

(** No fall-back to the whole list: with three candidates, none of them in
    a preferred region, nothing is available and the selection raises. *)
Example bootstrap_far_candidates :
  available_peers [] far_candidates = [] ∧
  bootstrap [] [0; 0; 0] far_candidates one_peer_config = Raise ValueError.
Proof. split; reflexivity. Qed.

End BootstrapProperties.

(** ** Configuration store *)

Section StoreProperties.
Import Config Py Store.

Variable json_loads : string → option ConfigDocument.
Variable toml_loads : string → option ConfigDocument.
Variable json_dumps : ConfigDocument → string.

Abbreviation read := (read_yggdrasil_config json_loads toml_loads).
Abbreviation write := (write_yggdrasil_config json_dumps).

Lemma rename_lookup_dst (src dst content : string) (fs : gmap string string) :
  fs !! src = Some content → rename src dst fs !! dst = Some content.
Proof. intros Hsrc. unfold rename. rewrite Hsrc. apply lookup_insert_eq. Qed.

(** A successful write leaves the serialised document, and nothing else,
    under the configuration path; the temporary file is gone. *)
Lemma write_files (st : storage) (config : ConfigDocument) :
  writable st = true →
  files (fst (write st config))
  = <[CONFIG_PATH := json_dumps config]> (delete TEMP_PATH (files st)) ∧
  snd (write st config) = true.
Proof.
  intros Hw. unfold write_yggdrasil_config. rewrite Hw. cbn [fst snd files].
  split; [|done]. unfold rename. rewrite lookup_insert_eq.
  by rewrite delete_insert_eq.
Qed.

(** A refused write changes nothing. *)
Lemma write_refused (st : storage) (config : ConfigDocument) :
  writable st = false → write st config = (st, false).
Proof. intros Hw. unfold write_yggdrasil_config. by rewrite Hw. Qed.

Lemma read_content (st : storage) (content : string) :
  files st !! CONFIG_PATH = Some content →
  read st =
    match json_loads content with
    | Some config => Ok config
    | None => match toml_loads content with
              | Some config => Ok config
              | None => Raise TomlDecodeError
              end
    end.
Proof. intros Hc. unfold read_yggdrasil_config. by rewrite Hc. Qed.

Lemma read_after_write (st : storage) (config : ConfigDocument) :
  json_loads (json_dumps config) = Some config →
  writable st = true →
  read (fst (write st config)) = Ok config ∧
  files (fst (write st config)) !! CONFIG_PATH = Some (json_dumps config).
Proof.
  intros Hcodec Hw.
  destruct (write_files st config Hw) as [Hfiles _].
  assert (files (fst (write st config)) !! CONFIG_PATH
          = Some (json_dumps config)) as Hlookup
    by (rewrite Hfiles; apply lookup_insert_eq).
  split; [|done].
  by rewrite (read_content _ _ Hlookup), Hcodec.
Qed.

(** The same for a file in the TOML format: the document read from it is
    read again after it has been written back, and the file has become
    JSON. *)
Lemma toml_origin_roundtrip (st : storage) (content : string)
    (config : ConfigDocument) :
  files st !! CONFIG_PATH = Some content →
  json_loads content = None →
  toml_loads content = Some config →
  json_loads (json_dumps config) = Some config →
  writable st = true →
  read st = Ok config ∧
  read (fst (write st config)) = Ok config ∧
  files (fst (write st config)) !! CONFIG_PATH = Some (json_dumps config) ∧
  json_dumps config ≠ content.
Proof.
  intros Hc Hjson Htoml Hcodec Hw.
  destruct (read_after_write st config Hcodec Hw) as (Hread & Hfile).
  split; [by rewrite (read_content _ _ Hc), Hjson, Htoml|].
  split; [done|]. split; [done|].
  intros Heq. rewrite Heq in Hcodec. congruence.
Qed.

(** C6. Without a configuration file the read returns [mock_config]
    (no peers, routing disabled, the default admin listen address); and
    the read raises exactly when the file exists and neither the JSON
    parser nor the TOML parser accepts its content, the exception then
    being the TOML parser's. *)
Theorem read_missing_or_corrupt (st : storage) :
  (files st !! CONFIG_PATH = None → read st = Ok mock_config) ∧
  (∀ e, read st = Raise e ↔
        e = TomlDecodeError ∧
        ∃ content, files st !! CONFIG_PATH = Some content ∧
                   json_loads content = None ∧
                   toml_loads content = None) ∧
  Peers mock_config = [] ∧
  Enable (ExitNode.routing_block mock_config) = false ∧
  ExitNode.any_route (ExitNode.routing_block mock_config) = false ∧
  AdminListen mock_config = "unix:///var/run/yggdrasil/yggdrasil.sock".
Proof.
  split; [|split; [|done]].
  - intros Hnone. unfold read_yggdrasil_config. by rewrite Hnone.
  - intros e. unfold read_yggdrasil_config.
    destruct (files st !! CONFIG_PATH) as [content|] eqn:Hc.
    + destruct (json_loads content) eqn:Hj.
      { split; [done|]. intros (_ & c1 & Hc1 & Hj1 & _).
        injection Hc1 as <-. congruence. }
      destruct (toml_loads content) eqn:Ht.
      { split; [done|]. intros (_ & c2 & Hc2 & _ & Ht2).
        injection Hc2 as <-. congruence. }
      split.
      * intros He. injection He as <-. split; [done|]. by exists content.
      * by intros [-> _].
    + split; [done|]. by intros (_ & c3 & Hc3 & _).
Qed.

End StoreProperties.

Section StoreExamples.
Import Config Py Store Fixture.

Lemma read_missing_file :
  files empty_storage !! CONFIG_PATH = None ∧
  read_yggdrasil_config loads toml_loads empty_storage = Ok mock_config.
Proof.
  split; [reflexivity|].
  apply (proj1 (read_missing_or_corrupt loads toml_loads empty_storage)).
  reflexivity.
Defined.

(** A TOML file is read through the second parser, and comes back as the
    same document, now from JSON, after it has been written. *)
Example toml_file_roundtrip :
  let config := {| Peers := ["tcp://a:9001"]; TunnelRouting := None;
                   AdminListen := "unix:///var/run/yggdrasil/yggdrasil.sock";
                   Other := [] |} in
  read_yggdrasil_config loads toml_loads toml_storage = Ok config ∧
  read_yggdrasil_config loads toml_loads
    (fst (write_yggdrasil_config dumps toml_storage config)) = Ok config.
Proof. split; vm_compute; reflexivity. Qed.

End StoreExamples.

(** ** The JSON codec: what is written is read back *)

Section JsonProperties.
Import Config Api Json.

#[local] Notation "c ▸ s" := (String c%char s)
  (at level 60, right associativity, only parsing).

Lemma json_nested_ind (P : json → Prop) :
  P JNull →
  (∀ b, P (JBool b)) →
  (∀ n, P (JNum n)) →
  (∀ s, P (JStr s)) →
  (∀ items, Forall P items → P (JArr items)) →
  (∀ fields, Forall (λ p, P (snd p)) fields → P (JObj fields)) →
  ∀ v, P v.
Proof.
  intros Hnull Hbool Hnum Hstr Harr Hobj.
  fix IH 1. intros [| b | n | s | items | fields].
  - exact Hnull.
  - apply Hbool.
  - apply Hnum.
  - apply Hstr.
  - apply Harr. induction items as [|x items IHitems]; constructor.
    + apply IH.
    + exact IHitems.
  - apply Hobj. induction fields as [|[key x] fields IHfields]; constructor.
    + apply IH.
    + exact IHfields.
Qed.

Lemma append_cons (c : ascii) (s k : string) :
  String c s +:+ k = String c (s +:+ k).
Proof. reflexivity. Qed.

Lemma append_empty (k : string) : EmptyString +:+ k = k.
Proof. reflexivity. Qed.

(** **** String literals *)

Lemma read_chars_escape_char (c : ascii) (k : string) :
  read_chars (escape_char c k) = cons_char c (read_chars k).
Proof. destruct c as [[] [] [] [] [] [] [] []]; reflexivity. Qed.

Lemma read_chars_escape (s k : string) :
  read_chars (escape s (dq ▸ k)) = Some (s, k).
Proof.
  induction s as [|c s IH]; [reflexivity|].
  cbn [escape]. rewrite read_chars_escape_char, IH. reflexivity.
Qed.

Lemma escape_char_length (c : ascii) (k : string) :
  S (String.length k) ≤ String.length (escape_char c k).
Proof.
  unfold escape_char.
  repeat match goal with |- context [if ?b then _ else _] => destruct b end;
    cbn [String.length]; lia.
Qed.

Lemma escape_length (s k : string) :
  String.length k ≤ String.length (escape s k).
Proof.
  induction s as [|c s IH]; [done|].
  cbn [escape]. pose proof (escape_char_length c (escape s k)). lia.
Qed.

Lemma show_string_length (s k : string) :
  2 + String.length k ≤ String.length (show_string s k).
Proof.
  unfold show_string. cbn [String.length].
  pose proof (escape_length s (dq ▸ k)) as H. cbn [String.length] in H. lia.
Qed.

(** **** Numbers *)

Lemma append_length (s k : string) :
  String.length (s +:+ k) = String.length s + String.length k.
Proof.
  induction s as [|c s IH]; [done|].
  rewrite append_cons. cbn [String.length]. by rewrite IH.
Qed.

Lemma read_uint_no_digit (k : string) :
  no_digit k → read_uint k = (Decimal.Nil, k).
Proof. destruct k as [|c k]; [done|]. cbn. by intros ->. Qed.

Lemma read_uint_digit (c : ascii) (s : string)
    (d : Decimal.uint → Decimal.uint) :
  digit c = Some d →
  read_uint (String c s) = (d (read_uint s).1, (read_uint s).2).
Proof. intros Hd. cbn [read_uint]. by rewrite Hd. Qed.

Lemma read_uint_show (u : Decimal.uint) (k : string) :
  no_digit k → read_uint (NilEmpty.string_of_uint u +:+ k) = (u, k).
Proof.
  intros Hk.
  induction u as [| u IH | u IH | u IH | u IH | u IH | u IH | u IH | u IH
                  | u IH | u IH ];
    cbn [NilEmpty.string_of_uint];
    [ rewrite append_empty; by apply read_uint_no_digit
    | rewrite append_cons; erewrite read_uint_digit by reflexivity;
      rewrite IH; reflexivity .. ].
Qed.

Lemma string_of_uint_nonnil (u : Decimal.uint) :
  u ≠ Decimal.Nil → NilZero.string_of_uint u = NilEmpty.string_of_uint u.
Proof. by destruct u. Qed.

Lemma read_number_digit (c : ascii) (s : string)
    (d : Decimal.uint → Decimal.uint) :
  digit c = Some d →
  read_number (String c s)
  = match read_uint (String c s) with
    | (Decimal.Nil, _) => None
    | (u, rest) => Some (Z.of_int (Decimal.Pos u), rest)
    end.
Proof.
  intros Hd. unfold read_number.
  destruct (Ascii.eqb_spec c "-") as [->|_]; [discriminate Hd|done].
Qed.

Lemma read_number_show_int (i : Decimal.signed_int) (k : string) :
  match i with Decimal.Pos u | Decimal.Neg u => u ≠ Decimal.Nil end →
  no_digit k →
  read_number (NilZero.string_of_int i +:+ k) = Some (Z.of_int i, k).
Proof.
  intros Hu Hk. destruct i as [u|u]; cbn [NilZero.string_of_int].
  - rewrite string_of_uint_nonnil by done.
    pose proof (read_uint_show u k Hk) as Hread.
    destruct u; [done|..]; cbn [NilEmpty.string_of_uint] in *;
      rewrite append_cons in *;
      (erewrite read_number_digit by reflexivity); by rewrite Hread.
  - rewrite string_of_uint_nonnil by done. rewrite append_cons.
    unfold read_number. cbn [Ascii.eqb Bool.eqb].
    rewrite (read_uint_show u k Hk). by destruct u.
Qed.

Lemma to_int_nonnil (n : Z) :
  match Z.to_int n with Decimal.Pos u | Decimal.Neg u => u ≠ Decimal.Nil end.
Proof.
  destruct n as [|p|p]; cbn; [done|..];
    apply DecimalPos.Unsigned.to_uint_nonnil.
Qed.

Lemma read_number_show (n : Z) (k : string) :
  no_digit k → read_number (string_of_Z n +:+ k) = Some (n, k).
Proof.
  intros Hk. unfold string_of_Z.
  rewrite (read_number_show_int _ k (to_int_nonnil n) Hk).
  by rewrite DecimalZ.of_to.
Qed.

Lemma string_of_Z_head (n : Z) :
  ∃ c s, string_of_Z n = String c s ∧ number_head c = true.
Proof.
  unfold string_of_Z. pose proof (to_int_nonnil n) as Hu.
  destruct (Z.to_int n) as [u|u]; cbn [NilZero.string_of_int].
  - rewrite string_of_uint_nonnil by done.
    destruct u; [done|..]; cbn [NilEmpty.string_of_uint]; by eexists _, _.
  - by eexists _, _.
Qed.

Lemma number_head_spec (c : ascii) :
  number_head c = true →
  is_ws c = false ∧ (c =? "]")%char = false ∧ (c =? "}")%char = false ∧
  ∀ fuel s,
    parse_value (S fuel) (String c s)
    = '(n, rest) ← read_number (String c s); Some (JNum n, rest).
Proof.
  destruct c as [[] [] [] [] [] [] [] []]; intros H; vm_compute in H;
    try discriminate H; done.
Qed.

(** **** Values *)

Lemma parse_value_S (fuel : nat) (s : string) :
  parse_value (S fuel) s
  = match skip_ws s with
    | EmptyString => None
    | String c s1 =>
        if (c =? dq)%char then
          '(w, rest) ← read_chars s1; Some (JStr w, rest)
        else if (c =? "[")%char then
          match skip_ws s1 with
          | EmptyString => None
          | String c2 rest =>
              if (c2 =? "]")%char then Some (JArr [], rest)
              else '(items, rest') ← parse_elements fuel s1;
                   Some (JArr items, rest')
          end
        else if (c =? "{")%char then
          match skip_ws s1 with
          | EmptyString => None
          | String c2 rest =>
              if (c2 =? "}")%char then Some (JObj [], rest)
              else '(fields, rest') ← parse_members fuel s1;
                   Some (JObj fields, rest')
          end
        else if (c =? "t")%char then
          rest ← literal "rue" s1; Some (JBool true, rest)
        else if (c =? "f")%char then
          rest ← literal "alse" s1; Some (JBool false, rest)
        else if (c =? "n")%char then
          rest ← literal "ull" s1; Some (JNull, rest)
        else
          '(n, rest) ← read_number (String c s1); Some (JNum n, rest)
    end.
Proof. reflexivity. Qed.

Lemma parse_elements_S (fuel : nat) (s : string) :
  parse_elements (S fuel) s
  = '(v, s1) ← parse_value fuel s;
    match skip_ws s1 with
    | EmptyString => None
    | String c s2 =>
        if (c =? ",")%char then
          '(items, rest) ← parse_elements fuel s2; Some (v :: items, rest)
        else if (c =? "]")%char then Some ([v], s2)
        else None
    end.
Proof. reflexivity. Qed.

Lemma parse_members_S (fuel : nat) (s : string) :
  parse_members (S fuel) s
  = match skip_ws s with
    | EmptyString => None
    | String c s0 =>
        if (c =? dq)%char then
          '(key, s1) ← read_chars s0;
          match skip_ws s1 with
          | EmptyString => None
          | String c1 s2 =>
              if (c1 =? ":")%char then
                '(v, s3) ← parse_value fuel s2;
                match skip_ws s3 with
                | EmptyString => None
                | String c3 s4 =>
                    if (c3 =? ",")%char then
                      '(fields, rest) ← parse_members fuel s4;
                      Some ((key, v) :: fields, rest)
                    else if (c3 =? "}")%char then Some ([(key, v)], s4)
                    else None
                end
              else None
          end
        else None
    end.
Proof. reflexivity. Qed.

Lemma parse_value_space (fuel : nat) (s : string) :
  parse_value fuel (" " ▸ s) = parse_value fuel s.
Proof. destruct fuel; reflexivity. Qed.

Lemma parse_elements_space (fuel : nat) (s : string) :
  parse_elements fuel (" " ▸ s) = parse_elements fuel s.
Proof.
  destruct fuel; [reflexivity|].
  by rewrite !parse_elements_S, parse_value_space.
Qed.

Lemma parse_members_space (fuel : nat) (s : string) :
  parse_members fuel (" " ▸ s) = parse_members fuel s.
Proof. destruct fuel; reflexivity. Qed.

(** What a printed value starts with. *)
Lemma show_head (v : json) (k : string) :
  ∃ c r, show v k = String c r ∧ is_ws c = false ∧
         (c =? "]")%char = false ∧ (c =? "}")%char = false.
Proof.
  destruct v as [| [] | n | s | items | fields]; try by eexists _, _.
  cbn [show]. destruct (string_of_Z_head n) as (c & s & -> & Hc).
  rewrite append_cons. exists c, (s +:+ k).
  destruct (number_head_spec c Hc) as (? & ? & ? & _). done.
Qed.

Lemma skip_ws_head (c : ascii) (r : string) :
  is_ws c = false → skip_ws (String c r) = String c r.
Proof. intros Hc. cbn [skip_ws]. by rewrite Hc. Qed.

Lemma parse_elements_show (rest : list json) :
  Forall reads_back rest →
  ∀ x fuel k,
    reads_back x →
    foldr (λ y n, S (size y + n)) 0 (x :: rest) ≤ fuel →
    parse_elements fuel
      (show x (foldr (λ y acc, "," ▸ " " ▸ show y acc) ("]" ▸ k) rest))
    = Some (x :: rest, k).
Proof.
  induction 1 as [|y rest Hy Hrest IH]; intros x fuel k Hx Hfuel;
    cbn [foldr] in *; (destruct fuel as [|fuel]; [lia|]);
    rewrite parse_elements_S.
  - rewrite Hx by (done || lia). reflexivity.
  - rewrite Hx by (done || lia). cbn [mbind option_bind].
    rewrite skip_ws_head by done. cbn [Ascii.eqb Bool.eqb].
    rewrite parse_elements_space, IH by (done || lia). reflexivity.
Qed.

Lemma parse_members_show (rest : list (string * json)) :
  Forall (λ p, reads_back (snd p)) rest →
  ∀ p fuel k,
    reads_back (snd p) →
    foldr (λ q n, S (size (snd q) + n)) 0 (p :: rest) ≤ fuel →
    parse_members fuel
      (show_string (fst p) (":" ▸ " " ▸ show (snd p)
         (foldr (λ q acc, "," ▸ " " ▸ show_string (fst q)
                            (":" ▸ " " ▸ show (snd q) acc))
                ("}" ▸ k) rest)))
    = Some (p :: rest, k).
Proof.
  induction 1 as [|q rest Hq Hrest IH]; intros [key x] fuel k Hx Hfuel;
    cbn [foldr fst snd] in *; (destruct fuel as [|fuel]; [lia|]);
    rewrite parse_members_S; unfold show_string at 1;
    rewrite skip_ws_head by done; cbn [Ascii.eqb Bool.eqb dq];
    rewrite read_chars_escape; cbn [mbind option_bind];
    rewrite skip_ws_head by done; cbn [Ascii.eqb Bool.eqb];
    rewrite parse_value_space, Hx by (done || lia);
    cbn [mbind option_bind].
  - reflexivity.
  - rewrite skip_ws_head by done. cbn [Ascii.eqb Bool.eqb].
    rewrite parse_members_space, IH by (done || lia). reflexivity.
Qed.

Lemma parse_value_show (v : json) : reads_back v.
Proof.
  induction v as [| b | n | s | items IH | fields IH] using json_nested_ind;
    intros fuel k Hk Hfuel; (destruct fuel as [|fuel]; [cbn in Hfuel; lia|]).
  - reflexivity.
  - by destruct b.
  - cbn [show]. destruct (string_of_Z_head n) as (c & s & Heq & Hc).
    destruct (number_head_spec c Hc) as (_ & _ & _ & Hparse).
    pose proof (read_number_show n k Hk) as Hread.
    rewrite Heq, append_cons in *. by rewrite Hparse, Hread.
  - rewrite parse_value_S. unfold show, show_string.
    rewrite skip_ws_head by done. cbn [Ascii.eqb Bool.eqb dq].
    by rewrite read_chars_escape.
  - rewrite parse_value_S. cbn [show]. rewrite skip_ws_head by done.
    cbn [Ascii.eqb Bool.eqb dq]. destruct IH as [|x rest Hx Hrest].
    + reflexivity.
    + destruct (show_head x
        (foldr (λ y acc, "," ▸ " " ▸ show y acc) ("]" ▸ k) rest))
        as (c & r & Heq & Hws & Hclose & _).
      rewrite Heq at 1. rewrite skip_ws_head, Hclose by done.
      rewrite (parse_elements_show rest Hrest x fuel k Hx)
        by (cbn [size] in Hfuel; lia).
      reflexivity.
  - rewrite parse_value_S. cbn [show]. rewrite skip_ws_head by done.
    cbn [Ascii.eqb Bool.eqb dq]. destruct IH as [|p rest Hp Hrest].
    + reflexivity.
    + unfold show_string at 1. rewrite skip_ws_head by done.
      cbn [Ascii.eqb Bool.eqb dq].
      rewrite (parse_members_show rest Hrest p fuel k Hp)
        by (cbn [size] in Hfuel; lia).
      reflexivity.
Qed.


Lemma show_length (v : json) (k : string) :
  size v + String.length k ≤ String.length (show v k).
Proof.
  revert k.
  induction v as [| b | n | s | items IH | fields IH] using json_nested_ind;
    intros k.
  - cbn. lia.
  - destruct b; cbn; lia.
  - cbn [show size]. destruct (string_of_Z_head n) as (c & s & -> & _).
    rewrite append_length. cbn [String.length]. lia.
  - cbn [show size]. pose proof (show_string_length s k). lia.
  - cbn [show size String.length]. destruct IH as [|x rest Hx Hrest].
    + cbn. lia.
    + cbn [foldr].
      pose proof (Hx (foldr (λ y acc, "," ▸ " " ▸ show y acc) ("]" ▸ k) rest))
        as Hhead.
      enough (foldr (λ y n, S (size y + n)) 0 rest + S (String.length k)
              ≤ String.length
                  (foldr (λ y acc, "," ▸ " " ▸ show y acc) ("]" ▸ k) rest))
        by lia.
      clear Hhead Hx. induction Hrest as [|y rest Hy _ IHrest].
      * cbn. lia.
      * cbn [foldr String.length].
        pose proof (Hy (foldr (λ y acc, "," ▸ " " ▸ show y acc) ("]" ▸ k) rest)).
        lia.
  - cbn [show size String.length]. destruct IH as [|p rest Hp Hrest].
    + cbn. lia.
    + cbn [foldr].
      pose proof (show_string_length (fst p)
        (":" ▸ " " ▸ show (snd p)
           (foldr (λ q acc, "," ▸ " " ▸ show_string (fst q)
                              (":" ▸ " " ▸ show (snd q) acc))
                  ("}" ▸ k) rest))) as Hkey.
      cbn [String.length] in Hkey.
      pose proof (Hp (foldr (λ q acc, "," ▸ " " ▸ show_string (fst q)
                                        (":" ▸ " " ▸ show (snd q) acc))
                            ("}" ▸ k) rest)) as Hhead.
      enough (foldr (λ q n, S (size (snd q) + n)) 0 rest + S (String.length k)
              ≤ String.length
                  (foldr (λ q acc, "," ▸ " " ▸ show_string (fst q)
                                     (":" ▸ " " ▸ show (snd q) acc))
                         ("}" ▸ k) rest))
        by lia.
      clear Hhead Hkey Hp. induction Hrest as [|q rest Hq _ IHrest].
      * cbn. lia.
      * cbn [foldr String.length].
        pose proof (show_string_length (fst q)
          (":" ▸ " " ▸ show (snd q)
             (foldr (λ q acc, "," ▸ " " ▸ show_string (fst q)
                                (":" ▸ " " ▸ show (snd q) acc))
                    ("}" ▸ k) rest))) as Hkey.
        cbn [String.length] in Hkey.
        pose proof (Hq (foldr (λ q acc, "," ▸ " " ▸ show_string (fst q)
                                          (":" ▸ " " ▸ show (snd q) acc))
                              ("}" ▸ k) rest)).
        lia.
Qed.

(** Every value is read back from the text printed for it. *)
Lemma parse_show (v : json) : parse (show v EmptyString) = Some v.
Proof.
  unfold parse. rewrite parse_value_show; [done|done|].
  pose proof (show_length v EmptyString). lia.
Qed.

(** **** Dictionaries *)

Lemma dict_set_fresh (key : string) (v : json) (items : list (string * json)) :
  key ∉ items.*1 → dict_set key v items = items ++ [(key, v)].
Proof.
  induction items as [|[k w] items IH]; [done|].
  cbn [fmap list_fmap fst]. intros Hfresh. cbn [dict_set].
  apply not_elem_of_cons in Hfresh as [Hne Hfresh].
  rewrite decide_False by done. by rewrite IH.
Qed.

Lemma dict_of_NoDup (fields : list (string * json)) :
  NoDup fields.*1 → dict_of fields = fields.
Proof.
  unfold dict_of.
  enough (∀ acc, NoDup (acc ++ fields).*1 →
                 foldl (λ items p, dict_set (fst p) (snd p) items) acc fields
                 = acc ++ fields) as Hgen by (intros; by apply (Hgen [])).
  induction fields as [|[k w] fields IH]; intros acc Hnodup.
  - by rewrite app_nil_r.
  - cbn [foldl fst snd]. rewrite dict_set_fresh.
    + rewrite IH; rewrite <- (assoc_L (++)); done.
    + rewrite fmap_app in Hnodup. apply NoDup_app in Hnodup as (_ & Hdisj & _).
      intros Hin. apply (Hdisj k Hin). cbn. left.
Qed.

Lemma assoc_fresh (key : string) (fields : list (string * json)) :
  key ∉ fields.*1 → assoc key fields = None.
Proof.
  induction fields as [|[k w] fields IH]; [done|].
  cbn [fmap list_fmap fst]. intros Hfresh.
  apply not_elem_of_cons in Hfresh as [Hne Hfresh].
  cbn [assoc]. rewrite decide_False by done. by apply IH.
Qed.

Lemma assoc_here (key : string) (v : json) (fields : list (string * json)) :
  assoc key ((key, v) :: fields) = Some v.
Proof. cbn [assoc]. by rewrite decide_True. Qed.

Lemma assoc_next (key k : string) (v : json) (fields : list (string * json)) :
  k ≠ key → assoc key ((k, v) :: fields) = assoc key fields.
Proof. intros Hne. cbn [assoc]. by rewrite decide_False. Qed.

Lemma as_strings_strings (l : list string) : as_strings (strings l) = Some l.
Proof. unfold as_strings, strings. by apply mapM_fmap_Some. Qed.

Lemma routing_of_to_json (tr : tunnel_routing) :
  routing_of_json (routing_to_json tr) = Some tr.
Proof.
  unfold routing_of_json, routing_to_json.
  rewrite dict_of_NoDup
    by (cbn [fmap list_fmap fst];
        rewrite !NoDup_cons, !not_elem_of_cons, !elem_of_nil;
        repeat split; (done || apply NoDup_nil_2 || tauto)).
  destruct tr as [en d6 s6 d4 s4]. cbn [Enable IPv6Destinations IPv6Sources
    IPv4Destinations IPv4Sources].
  replace (forallb _ _) with true by (vm_compute; reflexivity).
  rewrite assoc_here. cbn [mbind option_bind as_bool].
  rewrite (assoc_next "IPv6Destinations" "Enable") by done.
  rewrite assoc_here. cbn [mbind option_bind].
  rewrite as_strings_strings. cbn [mbind option_bind].
  rewrite (assoc_next "IPv6Sources" "Enable") by done.
  rewrite (assoc_next "IPv6Sources" "IPv6Destinations") by done.
  rewrite assoc_here. cbn [mbind option_bind].
  rewrite as_strings_strings. cbn [mbind option_bind].
  rewrite (assoc_next "IPv4Destinations" "Enable") by done.
  rewrite (assoc_next "IPv4Destinations" "IPv6Destinations") by done.
  rewrite (assoc_next "IPv4Destinations" "IPv6Sources") by done.
  rewrite assoc_here. cbn [mbind option_bind].
  rewrite as_strings_strings. cbn [mbind option_bind].
  rewrite (assoc_next "IPv4Sources" "Enable") by done.
  rewrite (assoc_next "IPv4Sources" "IPv6Destinations") by done.
  rewrite (assoc_next "IPv4Sources" "IPv6Sources") by done.
  rewrite (assoc_next "IPv4Sources" "IPv4Destinations") by done.
  rewrite assoc_here. cbn [mbind option_bind].
  rewrite as_strings_strings. reflexivity.
Qed.

Lemma other_keys (other : list (string * string)) :
  (other_to_json <$> other).*1 = other.*1.
Proof. induction other as [|[k w] other IH]; [done|]. cbn. by rewrite IH. Qed.

Lemma valid_spec (config : ConfigDocument) :
  valid config = true →
  NoDup (Other config).*1 ∧
  Forall (λ k, k ∉ known_keys) (Other config).*1.
Proof.
  unfold valid. intros [Hnodup Hknown]%andb_true_iff.
  split; [by apply bool_decide_eq_true in Hnodup|].
  apply Forall_forall. intros k Hk.
  rewrite forallb_forall in Hknown.
  apply (bool_decide_eq_true_1 _). apply Hknown.
  by apply list_elem_of_In.
Qed.

Lemma filter_other (other : list (string * string)) :
  Forall (λ k, k ∉ known_keys) other.*1 →
  filter (λ p : string * json, fst p ∉ known_keys) (other_to_json <$> other)
  = other_to_json <$> other.
Proof.
  induction other as [|[k w] other IH]; [done|].
  cbn [fmap list_fmap fst]. intros [Hk Hother]%Forall_cons.
  rewrite filter_cons_True by done. f_equal. by apply IH.
Qed.

Lemma known_key_fresh (key : string) (other : list (string * string)) :
  key ∈ known_keys →
  Forall (λ k, k ∉ known_keys) other.*1 →
  key ∉ (other_to_json <$> other).*1.
Proof.
  intros Hkey Hknown Hin. rewrite other_keys in Hin.
  rewrite Forall_forall in Hknown. by apply (Hknown key Hin).
Qed.

Lemma known_keys_elem (key : string) :
  key ∈ known_keys ↔
  key = "Peers" ∨ key = "TunnelRouting" ∨ key = "AdminListen".
Proof.
  unfold known_keys. rewrite !elem_of_cons, elem_of_nil. tauto.
Qed.

(** The dictionary of a valid document gives the document back. *)
Lemma of_to_json (config : ConfigDocument) :
  valid config = true → of_json (to_json config) = Some config.
Proof.
  intros (Hnodup & Hknown)%valid_spec.
  destruct config as [peers tr admin other]. cbn [Other] in *.
  assert ("Peers" ∈ known_keys) as HP by (apply known_keys_elem; tauto).
  assert ("TunnelRouting" ∈ known_keys) as HT
    by (apply known_keys_elem; tauto).
  assert ("AdminListen" ∈ known_keys) as HA by (apply known_keys_elem; tauto).
  pose proof (known_key_fresh _ other HP Hknown) as HP'.
  pose proof (known_key_fresh _ other HT Hknown) as HT'.
  pose proof (known_key_fresh _ other HA Hknown) as HA'.
  unfold of_json, to_json. cbn [Peers TunnelRouting AdminListen Other].
  rewrite dict_of_NoDup.
  2:{ cbn [fmap list_fmap fst]. rewrite fmap_app. cbn [fmap list_fmap fst].
      fold (fmap (M := list) (@fst string json)).
      destruct tr as [block|]; cbn [fmap list_fmap fst app];
        fold (fmap (M := list) (@fst string json));
        rewrite !NoDup_cons, !not_elem_of_cons;
        rewrite other_keys in *; done. }
  rewrite assoc_here. cbn [mbind option_bind]. rewrite as_strings_strings.
  cbn [mbind option_bind]. rewrite (assoc_next "TunnelRouting" "Peers") by done.
  rewrite (assoc_next "AdminListen" "Peers") by done.
  rewrite filter_cons_False by (by intros Hn; apply Hn).
  destruct tr as [block|]; cbn [app].
  - rewrite assoc_here, routing_of_to_json.
    cbn [fmap option_fmap option_map mbind option_bind].
    rewrite (assoc_next "AdminListen" "TunnelRouting") by done.
    rewrite assoc_here. cbn [mbind option_bind as_string].
    rewrite filter_cons_False by (by intros Hn; apply Hn).
    rewrite filter_cons_False by (by intros Hn; apply Hn).
    rewrite filter_other by done.
    rewrite (mapM_fmap_Some other_of_json other_to_json) by (by intros []).
    reflexivity.
  - rewrite (assoc_next "TunnelRouting" "AdminListen") by done.
    rewrite (assoc_fresh "TunnelRouting") by done.
    cbn [mbind option_bind].
    rewrite assoc_here. cbn [mbind option_bind as_string].
    rewrite filter_cons_False by (by intros Hn; apply Hn).
    rewrite filter_other by done.
    rewrite (mapM_fmap_Some other_of_json other_to_json) by (by intros []).
    reflexivity.
Qed.

(** What [json.dumps] writes for a valid document, [json.loads] reads as
    that document. *)
Lemma loads_dumps (config : ConfigDocument) :
  valid config = true → loads (dumps config) = Some config.
Proof.
  intros Hvalid. unfold loads, dumps. rewrite parse_show.
  cbn [mbind option_bind]. by apply of_to_json.
Qed.

End JsonProperties.

(** ** Configuration store: a write, then a read *)

Section StoreRoundTrip.
Import Config Py Store.

Variable toml_loads : string → option ConfigDocument.

Abbreviation load := (read_yggdrasil_config Json.loads toml_loads).
Abbreviation save := (write_yggdrasil_config Json.dumps).

(** C5. For every valid document (a dictionary: no key written twice, the
    known keys in their own fields), a read that follows a successful
    write returns that very document: same peers, same routing block,
    same admin address, same other keys. The file then holds the JSON
    text of the document, whatever it held before; and when the document
    had been read from a file that only the TOML parser accepts, that
    file has been replaced by a different text. *)
Theorem save_then_load (st : storage) (config : ConfigDocument) :
  Json.valid config = true →
  writable st = true →
  snd (save st config) = true ∧
  load (fst (save st config)) = Ok config ∧
  files (fst (save st config)) !! CONFIG_PATH = Some (Json.dumps config) ∧
  ∀ content,
    files st !! CONFIG_PATH = Some content →
    Json.loads content = None →
    toml_loads content = Some config →
    load st = Ok config ∧ Json.dumps config ≠ content.
Proof.
  intros Hvalid Hw.
  pose proof (loads_dumps config Hvalid) as Hcodec.
  destruct (read_after_write Json.loads toml_loads Json.dumps st config
              Hcodec Hw) as (Hread & Hfile).
  split; [apply (write_files Json.dumps st config Hw)|].
  split; [done|]. split; [done|].
  intros content Hc Hjson Htoml.
  split; [by rewrite (read_content _ _ _ _ Hc), Hjson, Htoml|].
  intros Heq. rewrite Heq in Hcodec. congruence.
Qed.

End StoreRoundTrip.

Section StoreRoundTripExamples.
Import Config Py Store Fixture.

Lemma save_then_load_toml_file :
  Json.valid toml_config = true ∧
  writable toml_storage = true ∧
  read_yggdrasil_config Json.loads toml_loads toml_storage = Ok toml_config ∧
  read_yggdrasil_config Json.loads toml_loads
    (fst (write_yggdrasil_config Json.dumps toml_storage toml_config))
  = Ok toml_config ∧
  files (fst (write_yggdrasil_config Json.dumps toml_storage toml_config))
    !! CONFIG_PATH = Some (Json.dumps toml_config) ∧
  Json.dumps toml_config ≠ toml_text.
Proof.
  assert (Json.valid toml_config = true) as Hvalid by reflexivity.
  assert (writable toml_storage = true) as Hw by reflexivity.
  destruct (save_then_load toml_loads toml_storage toml_config Hvalid Hw)
    as (_ & Hload & Hfile & Htoml).
  destruct (Htoml toml_text) as (Hbefore & Hdiff);
    [vm_compute; reflexivity ..|].
  repeat split; assumption.
Defined.

(** Quotes, backslashes, line ends and characters beyond ASCII are escaped
    in the text, and read back. *)
Example dumps_escapes :
  Json.valid escaped_config = true ∧
  Json.loads (Json.dumps escaped_config) = Some escaped_config ∧
  Json.parse (String "034" (String "092" "u00e9" +:+ String "034" ""))
  = Some (Api.JStr (String "233" "")).
Proof. repeat split; vm_compute; reflexivity. Qed.

End StoreRoundTripExamples.


(** ** Reload *)

Section ReloadProperties.
Import Py Reload.

(** Once [pidof] has named a process and [kill] has run, the result is
    [True]; the exit status of [kill] plays no part. *)
Lemma reload_pidof_hit (sys : system) (found killed : CompletedProcess)
    (pid : string) :
  run_pidof sys = Ok found →
  returncode found = 0%Z →
  split (strip (payload (stdout found))) !! 0 = Some pid →
  run_kill_HUP sys pid = Ok killed →
  reload_yggdrasil sys = Some true.
Proof.
  intros Hpidof Hcode Hpid Hkill. unfold reload_yggdrasil, reload_body.
  rewrite Hpidof, decide_True by done. by rewrite Hpid, Hkill.
Qed.

(** When [pidof] cannot be run at all, [subprocess.run] raises and the
    result is [False]; [ps aux] is not consulted. *)
Lemma reload_pidof_unavailable (sys : system) (e : exn) :
  run_pidof sys = Raise e → reload_yggdrasil sys = Some false.
Proof.
  intros Hpidof. unfold reload_yggdrasil, reload_body. by rewrite Hpidof.
Qed.

(** Every exception of the body ends in [False]. *)
Lemma reload_exception (sys : system) (e : exn) :
  reload_body sys = Raise e → reload_yggdrasil sys = Some false.
Proof. intros He. unfold reload_yggdrasil. by rewrite He. Qed.

(** With the [bytes] output that [capture_output=True] gives, the scan of
    [ps aux] stops at [split] with a [TypeError]: when [pidof] has no
    match the result is [False], whatever [ps] lists. *)
Lemma reload_scan_bytes (sys : system) (found listed : CompletedProcess)
    (out : string) :
  run_pidof sys = Ok found →
  returncode found ≠ 0%Z →
  run_ps_aux sys = Ok listed →
  stdout listed = Bytes out →
  reload_yggdrasil sys = Some false.
Proof.
  intros Hpidof Hcode Hps Hout. unfold reload_yggdrasil, reload_body.
  rewrite Hpidof, decide_False by done. by rewrite Hps, Hout.
Qed.

Lemma scan_no_match (sys : system) (lines : list string) :
  Forall (λ line, contains "yggdrasil" (lower line) = false) lines →
  scan sys lines = Ok None.
Proof.
  induction 1 as [|line lines Hline _ IH]; simpl; [done|].
  by rewrite Hline.
Qed.

(** In text mode, when no line of [ps aux] names the daemon, the loop ends
    and the function returns without a value. *)
Lemma reload_scan_text_no_match (sys : system)
    (found listed : CompletedProcess) (out : string) :
  run_pidof sys = Ok found →
  returncode found ≠ 0%Z →
  run_ps_aux sys = Ok listed →
  stdout listed = Str out →
  Forall (λ line, contains "yggdrasil" (lower line) = false)
         (split_newline out) →
  reload_yggdrasil sys = None.
Proof.
  intros Hpidof Hcode Hps Hout Hlines. unfold reload_yggdrasil, reload_body.
  rewrite Hpidof, decide_False by done. rewrite Hps, Hout. simpl.
  by rewrite scan_no_match.
Qed.

(** C7. When [pidof] has named the daemon and [kill] exits with a status
    other than 0, so that no signal is delivered, the result is [True]
    all the same. *)
Theorem reload_true_without_delivery (sys : system)
    (found killed : CompletedProcess) (pid : string) :
  run_pidof sys = Ok found →
  returncode found = 0%Z →
  split (strip (payload (stdout found))) !! 0 = Some pid →
  run_kill_HUP sys pid = Ok killed →
  returncode killed ≠ 0%Z →
  reload_yggdrasil sys = Some true ∧ delivered sys pid = false.
Proof.
  intros Hpidof Hcode Hpid Hkill Hstatus. split.
  - by apply (reload_pidof_hit sys found killed pid).
  - unfold delivered. rewrite Hkill. by apply bool_decide_eq_false_2.
Qed.

(** The host where [kill] is refused. *)
Lemma reload_kill_refused :
  reload_yggdrasil kill_refused = Some true ∧
  delivered kill_refused "4242" = false.
Proof.
  apply (reload_true_without_delivery kill_refused
           {| returncode := 0; stdout := Bytes "4242
" |}
           {| returncode := 1; stdout := Bytes "" |} "4242");
    [reflexivity | reflexivity | vm_compute; reflexivity | reflexivity
    | discriminate].
Defined.

(** With a daemon that only [ps aux] shows, the result is [False] on
    [bytes] output (and [True] had the output been text). *)
Example reload_daemon_in_ps :
  reload_yggdrasil (daemon_in_ps Bytes) = Some false ∧
  reload_yggdrasil (daemon_in_ps Str) = Some true.
Proof. split; vm_compute; reflexivity. Qed.

(** Without a daemon the result is [False] on [bytes] output, and no
    value at all on text output. *)
Example reload_no_daemon :
  reload_yggdrasil (no_daemon Bytes) = Some false ∧
  reload_yggdrasil (no_daemon Str) = None.
Proof. split; vm_compute; reflexivity. Qed.

End ReloadProperties.

(** ** Frontend: the API client *)

Section ApiProperties.
Import Api.

Lemma fetchAPI_responds (fetch : string → fetch_outcome) (endpoint : string)
    (r : response) :
  fetch (API_BASE +:+ endpoint) = Responds r →
  fetchAPI fetch endpoint =
    match body r with
    | ParseFails (ErrorObj name message) => Throw (ErrorObj name message)
    | ParseFails NonError => Throw (ErrorObj "Error" "Unknown error occurred")
    | Parses data =>
        if ok r then Return data
        else match data with
             | JNull =>
                 Throw (ErrorObj "TypeError"
                          "Cannot read properties of null (reading 'error')")
             | JObj fields =>
                 Throw (ErrorObj "Error"
                          (match assoc "error" fields with
                           | Some v => if truthy (Some v) then to_string v
                                       else http_message r
                           | None => http_message r
                           end))
             | _ => Throw (ErrorObj "Error" (http_message r))
             end
    end.
Proof.
  intros Hfetch. unfold fetchAPI, fetch_try. rewrite Hfetch.
  destruct (body r) as [data|[name message|]]; [|done..].
  destruct (ok r); [done|].
  destruct data as [| | | | |fields]; simpl; try done.
  by destruct (assoc "error" fields).
Qed.

(** C9, as stated, fails: on [bad_gateway], which is not ok, [fetchAPI]
    throws the parser's error, whose message is not the status line that
    the claim prescribes for a body without an [error] string. *)
Lemma fetchAPI_bad_gateway :
  ok bad_gateway = false ∧
  fetchAPI (λ _, Responds bad_gateway) "/exit-node"
    = Throw (ErrorObj "SyntaxError" "Unexpected token < in JSON at position 0") ∧
  specified_message bad_gateway = "HTTP 502: Bad Gateway" ∧
  thrown_message (fetchAPI (λ _, Responds bad_gateway) "/exit-node")
    ≠ Some (specified_message bad_gateway).
Proof. repeat split; vm_compute; congruence. Qed.

(** C9, amended. On a response that is not ok, [fetchAPI] throws an [Error]
    and returns nothing. The message is the body's [error] field when the
    body parses to an object with a non-empty string there, and the status
    line when the body parses to an object whose [error] is missing or
    falsy, or to a string, number, boolean or array; a truthy [error] that
    is no string gives its string conversion; a body that does not parse
    gives the parser's own error, the body [null] a [TypeError]. A value is
    returned only for an ok response whose body parses, and it is that
    body. *)
Theorem fetchAPI_outcomes (fetch : string → fetch_outcome) (endpoint : string) :
  (∀ r, fetch (API_BASE +:+ endpoint) = Responds r → ok r = false →
     (∃ name message,
        fetchAPI fetch endpoint = Throw (ErrorObj name message)) ∧
     (∀ fields s,
        body r = Parses (JObj fields) → assoc "error" fields = Some (JStr s) →
        s ≠ "" →
        fetchAPI fetch endpoint = Throw (ErrorObj "Error" s)) ∧
     (∀ fields,
        body r = Parses (JObj fields) → truthy (assoc "error" fields) = false →
        fetchAPI fetch endpoint = Throw (ErrorObj "Error" (http_message r))) ∧
     (∀ data,
        body r = Parses data → data ≠ JNull → (∀ fields, data ≠ JObj fields) →
        fetchAPI fetch endpoint = Throw (ErrorObj "Error" (http_message r))) ∧
     (∀ fields v,
        body r = Parses (JObj fields) → assoc "error" fields = Some v →
        truthy (Some v) = true →
        fetchAPI fetch endpoint = Throw (ErrorObj "Error" (to_string v))) ∧
     (∀ name message,
        body r = ParseFails (ErrorObj name message) →
        fetchAPI fetch endpoint = Throw (ErrorObj name message)) ∧
     (body r = Parses JNull →
        ∃ message,
          fetchAPI fetch endpoint = Throw (ErrorObj "TypeError" message))) ∧
  (∀ data, fetchAPI fetch endpoint = Return data →
     ∃ r, fetch (API_BASE +:+ endpoint) = Responds r ∧ ok r = true ∧
          body r = Parses data).
Proof.
  split.
  - intros r Hfetch Hok.
    pose proof (fetchAPI_responds fetch endpoint r Hfetch) as Hspec.
    rewrite Hok in Hspec.
    repeat split.
    + rewrite Hspec. destruct (body r) as [data|[name message|]]; [|eauto..].
      destruct data; eauto.
    + intros fields s Hbody Hfield Hs. rewrite Hspec, Hbody, Hfield. simpl.
      by rewrite bool_decide_eq_false_2.
    + intros fields Hbody Hfalsy. rewrite Hspec, Hbody.
      destruct (assoc "error" fields) as [v|]; [|done]. by rewrite Hfalsy.
    + intros data Hbody Hnull Hobj. rewrite Hspec, Hbody.
      destruct data; try done. by destruct (Hobj fields).
    + intros fields v Hbody Hfield Htruthy.
      by rewrite Hspec, Hbody, Hfield, Htruthy.
    + intros name message Hbody. by rewrite Hspec, Hbody.
    + intros Hbody. rewrite Hspec, Hbody. eauto.
  - intros data Hret. unfold fetchAPI, fetch_try in Hret.
    destruct (fetch (API_BASE +:+ endpoint)) as [r|[name message|]] eqn:Hfetch;
      [|done..].
    exists r. split; [done|].
    destruct (body r) as [data'|[name message|]] eqn:Hbody; [|done..].
    destruct (ok r) eqn:Hok; simpl in Hret.
    + injection Hret as ->. done.
    + destruct (get_error data') as [field|[name message|]]; done.
Qed.

(** The backend's own error answer goes through with its message. *)
Lemma fetchAPI_socket_missing :
  fetchAPI (λ _, Responds socket_missing) "/self"
  = Throw (ErrorObj "Error" "Yggdrasil socket not found").
Proof.
  apply (proj1 (proj2 (proj1 (fetchAPI_outcomes (λ _, Responds socket_missing)
                                 "/self") socket_missing eq_refl eq_refl))
           [("error", JStr "Yggdrasil socket not found")]
           "Yggdrasil socket not found");
    [reflexivity | reflexivity | discriminate].
Defined.

End ApiProperties.

(** ** Frontend: the settings page *)

Section SettingsProperties.
Import Api Settings.

Lemma on_error_state (e : bool) (err : thrown) (st : page_state) :
  exitNodeEnabled (on_error e err st) = negb e ∧
  success (on_error e err st) = success st ∧
  error (on_error e err st) =
    Some (match err with
          | ErrorObj _ message => message
          | NonError => "Failed to update exit node settings"
          end).
Proof. done. Qed.

(** A request that rejects, or resolves with a failed reload, makes the
    [try] block throw: the rejection itself, or the reload error. *)
Lemma attempt_fails (setExitNode : bool → completion ExitNodeResponse)
    (e : bool) (st : page_state) :
  ((∃ err, setExitNode e = Throw err) ∨
   (∃ result, setExitNode e = Return result ∧ reload_success result = false)) →
  ∃ err,
    attempt setExitNode e st = Throw err ∧
    (∀ result, setExitNode e = Return result →
       err = ErrorObj "Error" "Failed to reload Yggdrasil configuration") ∧
    (∀ t, setExitNode e = Throw t → err = t).
Proof.
  unfold attempt. intros [[err Herr]|(result & Hres & Hreload)].
  - exists err. rewrite Herr. split; [done|]. split; [done|].
    intros t Ht. by injection Ht as <-.
  - eexists. rewrite Hres, Hreload. done.
Qed.

(** C10. When the toggle shows [negb e] and [handleExitNodeToggle e] meets
    a request that rejects, or that resolves with [reload_success = false],
    the toggle is back at the value it showed before the call, the error
    state holds the message (the error's own message, or the fixed text
    for a failed reload, or for a rejection that is no [Error]), no success
    message is set and no timer started, and saving is over. The banner
    shows this message whenever it is not empty. *)
Theorem toggle_failure_reverts
    (setExitNode : bool → completion ExitNodeResponse)
    (e : bool) (st : page_state) :
  exitNodeEnabled st = negb e →
  ((∃ err, setExitNode e = Throw err) ∨
   (∃ result, setExitNode e = Return result ∧ reload_success result = false)) →
  let st' := fst (handleExitNodeToggle setExitNode e st) in
  exitNodeEnabled st' = exitNodeEnabled st ∧
  (∃ message,
     error st' = Some message ∧
     (message ≠ "" → error_banner st' = Some message) ∧
     (∀ result, setExitNode e = Return result →
        message = "Failed to reload Yggdrasil configuration") ∧
     (∀ name m, setExitNode e = Throw (ErrorObj name m) → message = m) ∧
     (setExitNode e = Throw NonError →
        message = "Failed to update exit node settings")) ∧
  success st' = None ∧
  isSaving st' = false ∧
  snd (handleExitNodeToggle setExitNode e st) = [].
Proof.
  intros Hshown Hfails. cbv zeta.
  destruct (attempt_fails setExitNode e
              (setSuccess None (setError None (setIsSaving true
                 (setExitNodeEnabled e st)))) Hfails)
    as (err & Hattempt & Hret & Hthrow).
  unfold handleExitNodeToggle. rewrite Hattempt. cbn [fst snd]. rewrite Hshown.
  split; [done|]. split; [|done].
  exists (match err with
          | ErrorObj _ message => message
          | NonError => "Failed to update exit node settings"
          end).
  split; [done|]. split.
  { intros Hne. unfold error_banner. cbn [error setIsSaving on_error setError].
    by rewrite decide_False. }
  split; [|split].
  - intros result Hres. by rewrite (Hret result Hres).
  - intros name m Ht. by rewrite (Hthrow _ Ht).
  - intros Ht. by rewrite (Hthrow _ Ht).
Qed.

(** A failed reload on switching the exit node on: the toggle is off again
    and the banner says why. *)
Lemma toggle_reload_failed :
  exitNodeEnabled toggle_off = negb true ∧
  exitNodeEnabled (fst (handleExitNodeToggle reload_failed true toggle_off))
    = false ∧
  error_banner (fst (handleExitNodeToggle reload_failed true toggle_off))
    = Some "Failed to reload Yggdrasil configuration".
Proof.
  split; [reflexivity|].
  destruct (toggle_failure_reverts reload_failed true toggle_off eq_refl
              (or_intror (ex_intro _ _ (conj eq_refl eq_refl))))
    as (Htoggle & _ & _).
  split; [exact Htoggle | reflexivity].
Defined.

(** On success the toggle keeps its new value and the success message is
    set, to be cleared after three seconds. *)
Lemma toggle_success (setExitNode : bool → completion ExitNodeResponse)
    (e : bool) (st : page_state) (result : ExitNodeResponse) :
  setExitNode e = Return result →
  reload_success result = true →
  exitNodeEnabled (fst (handleExitNodeToggle setExitNode e st)) = e ∧
  error (fst (handleExitNodeToggle setExitNode e st)) = None ∧
  is_Some (success (fst (handleExitNodeToggle setExitNode e st))) ∧
  snd (handleExitNodeToggle setExitNode e st) = [ClearSuccess 3000].
Proof.
  intros Hres Hreload. unfold handleExitNodeToggle, attempt.
  rewrite Hres, Hreload. cbn. eauto.
Qed.

End SettingsProperties.

(** * Further properties *)

(** ** Exit-node toggle: what it keeps *)

Section ExitNodeFrame.
Import Config ExitNode.

Lemma filter_other_app_default (l : list string) :
  filter (λ route, route ≠ DEFAULT_ROUTE) (l ++ [DEFAULT_ROUTE])
  = filter (λ route, route ≠ DEFAULT_ROUTE) l.
Proof.
  rewrite filter_app, filter_cons, decide_False by (by intros Hne).
  by rewrite filter_nil, app_nil_r.
Qed.

Lemma filter_other_list_remove (l : list string) :
  filter (λ route, route ≠ DEFAULT_ROUTE) (list_remove DEFAULT_ROUTE l)
  = filter (λ route, route ≠ DEFAULT_ROUTE) l.
Proof.
  induction l as [|y l IH]; simpl; [done|].
  case_decide as Heq.
  - by rewrite filter_cons, decide_False by (by intros Hne).
  - by rewrite !filter_cons, IH.
Qed.

Lemma list_remove_app_fresh (x : string) (l : list string) :
  x ∉ l → list_remove x (l ++ [x]) = l.
Proof.
  induction l as [|y l IH]; simpl; intros Hnot.
  - by rewrite decide_True.
  - rewrite decide_False by (intros ->; apply Hnot; left).
    f_equal. apply IH. intros Hin. apply Hnot. by right.
Qed.

Lemma list_remove_sublist (x : string) (l : list string) :
  list_remove x l `sublist_of` l.
Proof.
  induction l as [|y l IH]; simpl; [done|].
  case_decide; [by apply sublist_cons | by apply sublist_skip].
Qed.

Lemma toggle_off_dests (tr : tunnel_routing) :
  IPv6Destinations (toggle false tr)
  = list_remove DEFAULT_ROUTE (IPv6Destinations tr).
Proof. by rewrite toggle_off_spec. Qed.

Lemma toggle_on_dests (tr : tunnel_routing) :
  IPv6Destinations (toggle true tr)
  = if bool_decide (DEFAULT_ROUTE ∈ IPv6Destinations tr)
    then IPv6Destinations tr
    else IPv6Destinations tr ++ [DEFAULT_ROUTE].
Proof. by rewrite toggle_on_spec. Qed.

Lemma toggle_other_lists (enabled : bool) (tr : tunnel_routing) :
  IPv6Sources (toggle enabled tr) = IPv6Sources tr ∧
  IPv4Destinations (toggle enabled tr) = IPv4Destinations tr ∧
  IPv4Sources (toggle enabled tr) = IPv4Sources tr.
Proof.
  destruct enabled; [by rewrite toggle_on_spec | by rewrite toggle_off_spec].
Qed.

(** X1. The exit-node toggle, on or off, touches nothing but [Enable] and
    the default route: peers, admin address and the remaining keys stay,
    the three other route lists stay, and every IPv6 destination other
    than ["::/0"] stays, in its place. *)
Theorem set_exit_node_frame (enabled : bool) (config : ConfigDocument) :
  Peers (set_exit_node enabled config) = Peers config ∧
  AdminListen (set_exit_node enabled config) = AdminListen config ∧
  Other (set_exit_node enabled config) = Other config ∧
  IPv6Sources (routing_block (set_exit_node enabled config))
    = IPv6Sources (routing_block config) ∧
  IPv4Destinations (routing_block (set_exit_node enabled config))
    = IPv4Destinations (routing_block config) ∧
  IPv4Sources (routing_block (set_exit_node enabled config))
    = IPv4Sources (routing_block config) ∧
  filter (λ route, route ≠ DEFAULT_ROUTE)
         (IPv6Destinations (routing_block (set_exit_node enabled config)))
    = filter (λ route, route ≠ DEFAULT_ROUTE)
             (IPv6Destinations (routing_block config)).
Proof.
  change (routing_block (set_exit_node enabled config))
    with (toggle enabled (routing_block config)).
  destruct (toggle_other_lists enabled (routing_block config))
    as (Hs6 & Hd4 & Hs4).
  do 3 (split; [done|]). do 3 (split; [done|]).
  destruct enabled.
  - rewrite toggle_on_dests. case_bool_decide; [done|].
    apply filter_other_app_default.
  - rewrite toggle_off_dests. apply filter_other_list_remove.
Qed.

(** X2. Switching the exit node on and then off again gives back the four
    route lists of a document that had no default route, and leaves
    routing enabled exactly when one of them is non-empty, whatever
    [Enable] was before. *)
Theorem set_exit_node_on_off (config : ConfigDocument) :
  DEFAULT_ROUTE ∉ IPv6Destinations (routing_block config) →
  let after := routing_block (set_exit_node false (set_exit_node true config)) in
  IPv6Destinations after = IPv6Destinations (routing_block config) ∧
  IPv6Sources after = IPv6Sources (routing_block config) ∧
  IPv4Destinations after = IPv4Destinations (routing_block config) ∧
  IPv4Sources after = IPv4Sources (routing_block config) ∧
  Enable after = any_route (routing_block config).
Proof.
  intros Hfresh. cbv zeta.
  change (routing_block (set_exit_node false (set_exit_node true config)))
    with (toggle false (toggle true (routing_block config))).
  set (tr := routing_block config) in *.
  rewrite toggle_off_spec, toggle_on_spec. cbv zeta.
  cbn [IPv6Destinations IPv6Sources IPv4Destinations IPv4Sources Enable
       set_Enable set_IPv6Destinations].
  rewrite bool_decide_eq_false_2 by done.
  rewrite list_remove_app_fresh by done.
  do 4 (split; [done|]).
  unfold any_route. cbn [IPv6Destinations IPv6Sources IPv4Destinations IPv4Sources].
  by rewrite andb_true_r.
Qed.

Lemma set_exit_node_on_off_lan :
  (DEFAULT_ROUTE ∉ IPv6Destinations (routing_block lan_only)) ∧
  IPv4Sources (routing_block (set_exit_node false (set_exit_node true lan_only)))
    = ["10.0.0.0/8"] ∧
  Enable (routing_block (set_exit_node false (set_exit_node true lan_only)))
    = true.
Proof.
  assert (DEFAULT_ROUTE ∉ IPv6Destinations (routing_block lan_only)) as Hfresh
    by apply not_elem_of_nil.
  split; [exact Hfresh|].
  destruct (set_exit_node_on_off lan_only Hfresh) as (_ & _ & _ & Hs4 & Hen).
  split; [exact Hs4 | exact Hen].
Defined.

(** X3. The toggle keeps the IPv6 destinations free of duplicates. *)
Theorem set_exit_node_NoDup (enabled : bool) (config : ConfigDocument) :
  NoDup (IPv6Destinations (routing_block config)) →
  NoDup (IPv6Destinations (routing_block (set_exit_node enabled config))).
Proof.
  intros Hnd.
  change (routing_block (set_exit_node enabled config))
    with (toggle enabled (routing_block config)).
  destruct enabled.
  - rewrite toggle_on_dests. case_bool_decide as Hin; [done|].
    apply NoDup_app. split; [done|]. split; [|apply NoDup_singleton].
    intros route Hroute ->%list_elem_of_singleton. done.
  - rewrite toggle_off_dests.
    eapply sublist_NoDup; [done|]. apply list_remove_sublist.
Qed.

Lemma set_exit_node_NoDup_gateway :
  NoDup (IPv6Destinations (routing_block gateway_with_lan)) ∧
  NoDup (IPv6Destinations (routing_block (set_exit_node true gateway_with_lan))).
Proof.
  assert (NoDup (IPv6Destinations (routing_block gateway_with_lan))) as Hnd
    by apply NoDup_singleton.
  split; [exact Hnd|].
  exact (set_exit_node_NoDup true gateway_with_lan Hnd).
Defined.

(** X4. Switching the exit node off twice is the same as switching it off
    once, when the IPv6 destinations hold no duplicate. *)
Theorem set_exit_node_off_idempotent (config : ConfigDocument) :
  NoDup (IPv6Destinations (routing_block config)) →
  set_exit_node false (set_exit_node false config) = set_exit_node false config.
Proof.
  intros Hnd. unfold set_exit_node at 1 3. cbn [Peers AdminListen Other].
  f_equal. f_equal.
  change (routing_block (set_exit_node false config))
    with (toggle false (routing_block config)).
  set (tr := routing_block config) in *.
  rewrite (toggle_off_spec (toggle false tr)). cbv zeta.
  rewrite toggle_off_dests.
  rewrite (list_remove_not_in DEFAULT_ROUTE (list_remove DEFAULT_ROUTE _))
    by by apply list_remove_NoDup.
  rewrite toggle_off_spec. cbv zeta.
  unfold set_Enable, set_IPv6Destinations, any_route.
  cbn [IPv6Destinations IPv6Sources IPv4Destinations IPv4Sources Enable].
  f_equal. by destruct (any _).
Qed.

Lemma set_exit_node_off_twice_gateway :
  NoDup (IPv6Destinations (routing_block gateway_with_lan)) ∧
  set_exit_node false (set_exit_node false gateway_with_lan)
  = set_exit_node false gateway_with_lan.
Proof.
  assert (NoDup (IPv6Destinations (routing_block gateway_with_lan))) as Hnd
    by apply NoDup_singleton.
  split; [exact Hnd|].
  exact (set_exit_node_off_idempotent gateway_with_lan Hnd).
Defined.

End ExitNodeFrame.

(** ** Peer bootstrap: what is added, and from where *)

Section BootstrapMore.
Import Config Py Bootstrap.

Lemma elem_of_available_foldl (more_regions : list string)
    (peer_data : list (string * list string)) (u : string) :
  ∀ available : list string,
    u ∈ foldl (λ available entry,
                 if preferred more_regions (fst entry)
                 then available ++ snd entry else available)
              available peer_data
    ↔ u ∈ available ∨
      ∃ country peers, (country, peers) ∈ peer_data ∧
                       preferred more_regions country = true ∧ u ∈ peers.
Proof.
  induction peer_data as [|[country peers] rest IH]; intros available; simpl.
  - split; [by left|]. intros [Hin|(c & p & Hin & _)]; [done|].
    by apply elem_of_nil in Hin.
  - rewrite IH. destruct (preferred more_regions country) eqn:Hpref.
    + rewrite elem_of_app. split.
      * intros [[Hin|Hin]|(c & p & Hin & Hc & Hu)]; [by left| |].
        -- right. exists country, peers. split; [left|done].
        -- right. exists c, p. split; [by right|done].
      * intros [Hin|(c & p & Hin & Hc & Hu)]; [by left; left|].
        apply elem_of_cons in Hin as [Heq|Hin].
        -- injection Heq as -> ->. left. by right.
        -- right. by exists c, p.
    + split.
      * intros [Hin|(c & p & Hin & Hc & Hu)]; [by left|].
        right. exists c, p. split; [by right|done].
      * intros [Hin|(c & p & Hin & Hc & Hu)]; [by left|].
        apply elem_of_cons in Hin as [Heq|Hin].
        -- injection Heq as -> ->. congruence.
        -- right. by exists c, p.
Qed.

(** A peer is available exactly when a country of a preferred region
    lists it. *)
Lemma elem_of_available_peers (more_regions : list string)
    (peer_data : list (string * list string)) (u : string) :
  u ∈ available_peers more_regions peer_data
  ↔ ∃ country peers, (country, peers) ∈ peer_data ∧
                     preferred more_regions country = true ∧ u ∈ peers.
Proof.
  unfold available_peers. rewrite elem_of_available_foldl.
  split; [|by right]. intros [Hin|H]; [|done]. by apply elem_of_nil in Hin.
Qed.

Lemma select_peers_ok (picks : list nat) (available selected : list string) :
  select_peers picks available = Ok selected →
  length selected = TARGET_COUNT ∧ selected ⊆+ available.
Proof.
  unfold select_peers, random_sample. case_decide as Hlen; [|done].
  intros Hok.
  assert (selected = draw picks available TARGET_COUNT) as -> by congruence.
  split; [by apply draw_length | apply draw_submseteq].
Qed.

(** X5. With at least [TARGET_COUNT] available peers bootstrap returns,
    whatever the generator does: three candidates are drawn without
    replacement, and the peer list becomes the old one followed by those
    of the three that were not configured, in the order drawn. *)
Theorem bootstrap_enough (more_regions : list string)
    (picks : list nat) (peer_data : list (string * list string))
    (config : ConfigDocument) :
  TARGET_COUNT ≤ length (available_peers more_regions peer_data) →
  ∃ r selected,
    bootstrap more_regions picks peer_data config = Ok r ∧
    length selected = TARGET_COUNT ∧
    selected ⊆+ available_peers more_regions peer_data ∧
    Peers (new_config r)
    = Peers config ++ filter (λ peer, peer ∉ Peers config) selected ∧
    total_peers r = length (Peers (new_config r)).
Proof.
  intros Hlen. unfold bootstrap, select_peers, random_sample.
  rewrite decide_True by done.
  eexists _, _. split; [done|]. cbn [new_config Peers total_peers].
  split; [by apply draw_length|]. split; [apply draw_submseteq|].
  split; [apply merge_peers_spec | done].
Qed.

Lemma bootstrap_enough_sample :
  TARGET_COUNT ≤ length (available_peers [] sample_peer_data) ∧
  ∃ r selected,
    bootstrap [] [2; 0; 0] sample_peer_data one_peer_config = Ok r ∧
    length selected = TARGET_COUNT ∧
    selected ⊆+ available_peers [] sample_peer_data ∧
    Peers (new_config r)
    = Peers one_peer_config
      ++ filter (λ peer, peer ∉ Peers one_peer_config) selected ∧
    total_peers r = length (Peers (new_config r)).
Proof.
  assert (TARGET_COUNT ≤ length (available_peers [] sample_peer_data)) as Hlen
    by (vm_compute; lia).
  split; [exact Hlen|].
  exact (bootstrap_enough [] [2; 0; 0] sample_peer_data one_peer_config Hlen).
Defined.

(** X6. Bootstrap keeps the peer list free of duplicates, when the
    configured peers are distinct and no URI is listed twice among the
    available ones. *)
Theorem bootstrap_keeps_peers_distinct (more_regions : list string)
    (picks : list nat) (peer_data : list (string * list string))
    (config : ConfigDocument) (r : bootstrap_result) :
  NoDup (Peers config) →
  NoDup (available_peers more_regions peer_data) →
  bootstrap more_regions picks peer_data config = Ok r →
  NoDup (Peers (new_config r)).
Proof.
  intros Hpeers Havailable. unfold bootstrap.
  destruct (select_peers _ _) as [selected|e] eqn:Hsel; [|done].
  intros Hr. injection Hr as <-. cbn [new_config Peers].
  destruct (select_peers_ok _ _ _ Hsel) as [_ Hsub].
  rewrite merge_peers_spec. apply NoDup_app. split; [done|]. split.
  - intros peer Hin [Hnot _]%list_elem_of_filter. done.
  - apply NoDup_filter. by eapply NoDup_submseteq_l.
Qed.

Lemma bootstrap_sample_distinct :
  NoDup (Peers one_peer_config) ∧
  NoDup (available_peers [] sample_peer_data) ∧
  NoDup ["tcp://b:9001"; "tcp://a:9001"; "tcp://c:9001"].
Proof.
  assert (NoDup (Peers one_peer_config)) as Hpeers by apply NoDup_singleton.
  assert (NoDup (available_peers [] sample_peer_data)) as Havailable.
  { apply NoDup_ListNoDup. vm_compute.
    repeat (constructor; [simpl; intuition congruence|]). constructor. }
  split; [exact Hpeers|]. split; [exact Havailable|].
  apply (bootstrap_keeps_peers_distinct [] [0; 0; 0] sample_peer_data
           one_peer_config
           {| new_config :=
                {| Peers := ["tcp://b:9001"; "tcp://a:9001"; "tcp://c:9001"];
                   TunnelRouting := None;
                   AdminListen := "unix:///var/run/yggdrasil/yggdrasil.sock";
                   Other := [] |};
              peers_added := ["tcp://a:9001"; "tcp://c:9001"];
              total_peers := 3 |} Hpeers Havailable).
  vm_compute; reflexivity.
Defined.

(** X7. Whenever bootstrap returns, it has added at most [TARGET_COUNT]
    peers, and each of them is listed by a country of a preferred region:
    no peer of another country is ever added. *)
Theorem bootstrap_added_from_preferred (more_regions : list string)
    (picks : list nat) (peer_data : list (string * list string))
    (config : ConfigDocument) (r : bootstrap_result) :
  bootstrap more_regions picks peer_data config = Ok r →
  length (peers_added r) ≤ TARGET_COUNT ∧
  ∀ peer, peer ∈ peers_added r →
    ∃ country peers, (country, peers) ∈ peer_data ∧
                     preferred more_regions country = true ∧ peer ∈ peers.
Proof.
  unfold bootstrap.
  destruct (select_peers _ _) as [selected|e] eqn:Hsel; [|done].
  intros Hr. injection Hr as <-. cbn [peers_added].
  destruct (select_peers_ok _ _ _ Hsel) as [Hlen Hsub].
  rewrite appended_spec. split.
  - rewrite <- Hlen. apply length_filter.
  - intros peer [_ Hin]%list_elem_of_filter.
    apply elem_of_available_peers.
    by apply (elem_of_submseteq _ _ _ Hin).
Qed.

Lemma bootstrap_sample_provenance :
  length ["tcp://a:9001"; "tcp://c:9001"] ≤ TARGET_COUNT ∧
  ∀ peer, peer ∈ ["tcp://a:9001"; "tcp://c:9001"] →
    ∃ country peers, (country, peers) ∈ sample_peer_data ∧
                     preferred [] country = true ∧ peer ∈ peers.
Proof.
  apply (bootstrap_added_from_preferred [] [0; 0; 0] sample_peer_data
           one_peer_config
           {| new_config :=
                {| Peers := ["tcp://b:9001"; "tcp://a:9001"; "tcp://c:9001"];
                   TunnelRouting := None;
                   AdminListen := "unix:///var/run/yggdrasil/yggdrasil.sock";
                   Other := [] |};
              peers_added := ["tcp://a:9001"; "tcp://c:9001"];
              total_peers := 3 |}).
  vm_compute; reflexivity.
Defined.

(** X8. A second bootstrap that draws the same peers adds none of them
    again: it returns an empty list of added peers and leaves the peer
    list as the first one made it. *)
Theorem bootstrap_again_adds_nothing (more_regions : list string)
    (picks : list nat) (peer_data : list (string * list string))
    (config : ConfigDocument) (r : bootstrap_result) :
  bootstrap more_regions picks peer_data config = Ok r →
  ∃ r', bootstrap more_regions picks peer_data (new_config r) = Ok r' ∧
        peers_added r' = [] ∧
        Peers (new_config r') = Peers (new_config r) ∧
        total_peers r' = total_peers r.
Proof.
  unfold bootstrap.
  destruct (select_peers _ _) as [selected|e] eqn:Hsel; [|done].
  intros Hr. injection Hr as <-. cbn [new_config Peers total_peers peers_added].
  eexists. split; [done|]. cbn [new_config Peers total_peers peers_added].
  assert (filter (λ peer, peer ∉ merge_peers (Peers config) selected) selected
          = []) as Hnone.
  { destruct (filter _ selected) as [|peer rest] eqn:Hfilter; [done|].
    assert (peer ∈ filter (λ peer, peer ∉ merge_peers (Peers config) selected)
                     selected) as [Hnot Hin]%list_elem_of_filter
      by (rewrite Hfilter; left).
    exfalso. apply Hnot.
    rewrite merge_peers_spec, elem_of_app, list_elem_of_filter.
    destruct (decide (peer ∈ Peers config)); [by left | by right]. }
  rewrite appended_spec, (merge_peers_spec (merge_peers _ _)), Hnone.
  by rewrite app_nil_r.
Qed.

Lemma bootstrap_sample_again :
  ∃ r', bootstrap [] [0; 0; 0] sample_peer_data
          {| Peers := ["tcp://b:9001"; "tcp://a:9001"; "tcp://c:9001"];
             TunnelRouting := None;
             AdminListen := "unix:///var/run/yggdrasil/yggdrasil.sock";
             Other := [] |} = Ok r' ∧
        peers_added r' = [] ∧
        Peers (new_config r')
        = ["tcp://b:9001"; "tcp://a:9001"; "tcp://c:9001"] ∧
        total_peers r' = 3.
Proof.
  apply (bootstrap_again_adds_nothing [] [0; 0; 0] sample_peer_data
           one_peer_config
           {| new_config :=
                {| Peers := ["tcp://b:9001"; "tcp://a:9001"; "tcp://c:9001"];
                   TunnelRouting := None;
                   AdminListen := "unix:///var/run/yggdrasil/yggdrasil.sock";
                   Other := [] |};
              peers_added := ["tcp://a:9001"; "tcp://c:9001"];
              total_peers := 3 |}).
  vm_compute; reflexivity.
Defined.

End BootstrapMore.

(** ** Reload: when the answer is [True] *)

Section ReloadMore.
Import Py Reload.

Lemma scan_true (sys : system) (lines : list string) :
  scan sys lines = Ok (Some true) →
  ∃ line pid killed,
    line ∈ lines ∧
    contains "yggdrasil" (lower line) = true ∧
    split line !! 1 = Some pid ∧
    run_kill_HUP sys pid = Ok killed.
Proof.
  induction lines as [|line rest IH]; simpl; [done|].
  destruct (contains "yggdrasil" (lower line)) eqn:Hmatch.
  - destruct (split line !! 1) as [pid|] eqn:Hpid; [|done].
    destruct (run_kill_HUP sys pid) as [killed|e] eqn:Hkill; [|done].
    intros _. exists line, pid, killed. split; [left|done].
  - intros (l & pid & killed & Hin & H)%IH.
    exists l, pid, killed. split; [by right|done].
Qed.

Lemma reload_true_inv (sys : system) :
  reload_yggdrasil sys = Some true →
  ∃ found,
    run_pidof sys = Ok found ∧
    ((returncode found = 0%Z ∧
      ∃ pid killed,
        split (strip (payload (stdout found))) !! 0 = Some pid ∧
        run_kill_HUP sys pid = Ok killed) ∨
     (returncode found ≠ 0%Z ∧
      ∃ listed out line pid killed,
        run_ps_aux sys = Ok listed ∧
        stdout listed = Str out ∧
        line ∈ split_newline out ∧
        contains "yggdrasil" (lower line) = true ∧
        split line !! 1 = Some pid ∧
        run_kill_HUP sys pid = Ok killed)).
Proof.
  unfold reload_yggdrasil, reload_body.
  destruct (run_pidof sys) as [found|e]; [|done].
  intros Hret. exists found. split; [done|].
  case_decide as Hcode.
  - left. split; [done|].
    destruct (split _ !! 0) as [pid|]; [|done].
    destruct (run_kill_HUP sys pid) as [killed|e] eqn:Hkill; [|done].
    by exists pid, killed.
  - right. split; [done|].
    destruct (run_ps_aux sys) as [listed|e]; [|done].
    destruct (stdout listed) as [out|out] eqn:Hout; [done|]. simpl in Hret.
    destruct (scan sys (split_newline out)) as [[[]|]|e] eqn:Hscan; try done.
    destruct (scan_true _ _ Hscan) as (line & pid & killed & Hin & H).
    by exists listed, out, line, pid, killed.
Qed.

(** X9. With the [bytes] output that [capture_output=True] gives,
    [reload_yggdrasil] always returns a boolean, and [True] exactly when
    [pidof] completed with status 0 and named a process on which [kill]
    could be run; a daemon that only [ps aux] would show is never found. *)
Theorem reload_on_bytes (sys : system) :
  (∀ listed, run_ps_aux sys = Ok listed → ∃ out, stdout listed = Bytes out) →
  (reload_yggdrasil sys = Some true ∨ reload_yggdrasil sys = Some false) ∧
  (reload_yggdrasil sys = Some true ↔
   ∃ found pid killed,
     run_pidof sys = Ok found ∧
     returncode found = 0%Z ∧
     split (strip (payload (stdout found))) !! 0 = Some pid ∧
     run_kill_HUP sys pid = Ok killed).
Proof.
  intros Hbytes.
  assert (reload_yggdrasil sys = Some true ↔
          ∃ found pid killed,
            run_pidof sys = Ok found ∧
            returncode found = 0%Z ∧
            split (strip (payload (stdout found))) !! 0 = Some pid ∧
            run_kill_HUP sys pid = Ok killed) as Hiff.
  { split.
    - intros (found & Hpidof & [(Hcode & pid & killed & Hpid & Hkill)|
        (_ & listed & out & _ & _ & _ & Hps & Hout & _)])%reload_true_inv.
      + by exists found, pid, killed.
      + destruct (Hbytes listed Hps) as [out' Hout']. congruence.
    - intros (found & pid & killed & Hpidof & Hcode & Hpid & Hkill).
      by apply (reload_pidof_hit sys found killed pid). }
  split; [|done].
  unfold reload_yggdrasil, reload_body.
  destruct (run_pidof sys) as [found|e]; [|by right].
  case_decide.
  - destruct (split _ !! 0) as [pid|]; [|by right].
    destruct (run_kill_HUP sys pid); [by left | by right].
  - destruct (run_ps_aux sys) as [listed|e] eqn:Hps; [|by right].
    destruct (Hbytes listed eq_refl) as [out ->]. by right.
Qed.

Lemma reload_on_bytes_daemon_in_ps :
  (∀ listed, run_ps_aux (daemon_in_ps Bytes) = Ok listed →
             ∃ out, stdout listed = Bytes out) ∧
  reload_yggdrasil (daemon_in_ps Bytes) = Some false.
Proof.
  assert (∀ listed, run_ps_aux (daemon_in_ps Bytes) = Ok listed →
                    ∃ out, stdout listed = Bytes out) as Hbytes.
  { intros listed Hps. injection Hps as <-. by eexists. }
  split; [exact Hbytes|].
  destruct (reload_on_bytes (daemon_in_ps Bytes) Hbytes) as [[Ht|Hf] _].
  - vm_compute in Ht. discriminate Ht.
  - exact Hf.
Defined.

(** X10. [reload_yggdrasil] answers [True] only after [kill -HUP] was run
    on a process id it found: the first word that [pidof] printed, or the
    second word of a line of [ps aux] that names the daemon. *)
Theorem reload_true_only_after_kill (sys : system) :
  reload_yggdrasil sys = Some true →
  ∃ pid killed,
    run_kill_HUP sys pid = Ok killed ∧
    ((∃ found, run_pidof sys = Ok found ∧ returncode found = 0%Z ∧
               split (strip (payload (stdout found))) !! 0 = Some pid) ∨
     (∃ listed out line,
        run_ps_aux sys = Ok listed ∧ stdout listed = Str out ∧
        line ∈ split_newline out ∧
        contains "yggdrasil" (lower line) = true ∧
        split line !! 1 = Some pid)).
Proof.
  intros (found & Hpidof & [(Hcode & pid & killed & Hpid & Hkill)|
    (_ & listed & out & line & pid & killed & Hps & Hout & Hin & Hm & Hpid
       & Hkill)])%reload_true_inv.
  - exists pid, killed. split; [done|]. left. by exists found.
  - exists pid, killed. split; [done|]. right. by exists listed, out, line.
Qed.

Lemma reload_true_kill_refused :
  reload_yggdrasil kill_refused = Some true ∧
  ∃ pid killed, run_kill_HUP kill_refused pid = Ok killed.
Proof.
  assert (reload_yggdrasil kill_refused = Some true) as Htrue
    by (vm_compute; reflexivity).
  split; [exact Htrue|].
  destruct (reload_true_only_after_kill kill_refused Htrue)
    as (pid & killed & Hkill & _).
  by exists pid, killed.
Defined.

End ReloadMore.

(** ** Frontend: the API client, what it throws *)

Section ApiMore.
Import Api.

(** X11. Whatever the network does, what [fetchAPI] throws is an [Error]
    (a rejection that is none is replaced by "Unknown error occurred"),
    and it returns the body whenever the response is ok and parses. *)
Theorem fetchAPI_throws_errors (fetch : string → fetch_outcome)
    (endpoint : string) :
  (∀ t, fetchAPI fetch endpoint = Throw t → ∃ name message, t = ErrorObj name message) ∧
  (fetch (API_BASE +:+ endpoint) = FetchRejects NonError →
   fetchAPI fetch endpoint = Throw (ErrorObj "Error" "Unknown error occurred")) ∧
  (∀ r data, fetch (API_BASE +:+ endpoint) = Responds r → ok r = true →
             body r = Parses data → fetchAPI fetch endpoint = Return data).
Proof.
  split; [|split].
  - unfold fetchAPI. intros t.
    destruct (fetch_try fetch _) as [data|[name message|]]; [done|..];
      intros Ht; injection Ht as <-; eauto.
  - intros Hfetch. unfold fetchAPI, fetch_try. by rewrite Hfetch.
  - intros r data Hfetch Hok Hbody.
    rewrite (fetchAPI_responds fetch endpoint r Hfetch), Hbody. by rewrite Hok.
Qed.

Lemma fetchAPI_odd_rejection :
  fetchAPI (λ _, FetchRejects NonError) "/peers"
  = Throw (ErrorObj "Error" "Unknown error occurred").
Proof.
  apply (proj1 (proj2 (fetchAPI_throws_errors (λ _, FetchRejects NonError)
                         "/peers"))).
  reflexivity.
Defined.

End ApiMore.

(** ** Frontend: the polling hook *)

Section PollingProperties.
Import Api Polling.
Context {T : Type}.

Lemma run_cancelled (events : list (event T)) :
  ∀ s : effect_state T,
    cancelled s = true →
    view (run s events) = view s ∧ cancelled (run s events) = true.
Proof.
  induction events as [|e events IH]; intros s Hc; simpl; [done|].
  destruct e as [outcome|].
  - destruct (IH (step s (Settled outcome))) as [Hview Hcancelled]; [done|].
    change (run s (Settled outcome :: events))
      with (run (step s (Settled outcome)) events).
    rewrite Hview, Hcancelled. split; [|done].
    simpl. rewrite Hc. by destruct outcome.
  - destruct (IH (step s Cleanup)) as [Hview Hcancelled]; [done|].
    change (run s (Cleanup :: events)) with (run (step s Cleanup) events).
    by rewrite Hview, Hcancelled.
Qed.

(** X12. Once the effect is cleaned up, a poll that settles afterwards
    changes nothing of what the hook returns. *)
Theorem polling_after_cleanup (s : effect_state T)
    (before after : list (event T)) :
  view (run s (before ++ Cleanup :: after)) = view (run s before) ∧
  interval_set (run s (before ++ [Cleanup])) = false.
Proof.
  unfold run. rewrite !foldl_app. simpl. split; [|done].
  apply (run_cancelled after (step (foldl step s before) Cleanup)). done.
Qed.

Lemma run_settled (outcomes : list (completion T)) :
  ∀ s : effect_state T,
    cancelled s = false →
    cancelled (run s (Settled <$> outcomes)) = false ∧
    data (view (run s (Settled <$> outcomes)))
    = from_option Some (data (view s)) (last (omap returned outcomes)).
Proof.
  induction outcomes as [|o outcomes IH]; intros s Hc; [done|].
  change (run s (Settled <$> o :: outcomes))
    with (run (step s (Settled o)) (Settled <$> outcomes)).
  destruct (IH (step s (Settled o))) as [Hcancelled Hdata]; [done|].
  split; [done|]. rewrite Hdata. simpl. rewrite Hc.
  destruct o as [result|err]; simpl; [|done].
  rewrite last_cons. by destruct (last _).
Qed.

(** X13. While the hook is mounted, after any run of polls the loading
    flag is down, the error is that of the last poll (none when it
    succeeded), and the data are those of the last poll that succeeded:
    a failed poll keeps the data it found. *)
Theorem polling_last (s : effect_state T) (outcomes : list (completion T))
    (o : completion T) :
  cancelled s = false →
  let s' := run s (Settled <$> (outcomes ++ [o])) in
  isLoading (view s') = false ∧
  error (view s')
  = match o with
    | Return _ => None
    | Throw (ErrorObj name message) => Some (ErrorObj name message)
    | Throw NonError => Some (ErrorObj "Error" "Unknown error")
    end ∧
  data (view s')
  = from_option Some (data (view s)) (last (omap returned (outcomes ++ [o]))).
Proof.
  intros Hc. cbv zeta.
  destruct (run_settled (outcomes ++ [o]) s Hc) as [_ Hdata].
  split; [|split; [|done]].
  - rewrite fmap_app. unfold run. rewrite foldl_app. simpl.
    destruct (run_settled outcomes s Hc) as [Hc' _]. unfold run in Hc'.
    rewrite Hc'. by destruct o.
  - rewrite fmap_app. unfold run. rewrite foldl_app. simpl.
    destruct (run_settled outcomes s Hc) as [Hc' _]. unfold run in Hc'.
    rewrite Hc'. by destruct o as [|[|]].
Qed.

End PollingProperties.

Section PollingExamples.
Import Api Polling.

Lemma polling_stale_data :
  cancelled (mounted (T := Z)) = false ∧
  data (view (run mounted
                (Settled <$> ([Return 7%Z] ++ [Throw (ErrorObj "Error" "HTTP 503: ")]))))
  = Some 7%Z.
Proof.
  split; [reflexivity|].
  destruct (polling_last (mounted (T := Z)) [Return 7%Z]
              (Throw (ErrorObj "Error" "HTTP 503: ")) eq_refl)
    as (_ & _ & Hdata).
  exact Hdata.
Defined.

End PollingExamples.

(** ** Frontend: the peers page *)

Section PeersPageProperties.
Import Api ApiTypes PeersPage.
Local Open Scope Z_scope.

Lemma rem_3600_nonneg (seconds : Z) :
  0 ≤ seconds → Z.rem seconds 3600 = seconds `mod` 3600.
Proof. intros Hs. apply Z.rem_mod_nonneg; lia. Qed.

Lemma safe_integer_nonneg (n : Z) :
  0 ≤ n ≤ MAX_SAFE_INTEGER → safe_integer n = true.
Proof.
  intros [Hlo Hhi]. unfold safe_integer.
  apply andb_true_iff. split; apply Z.leb_le; [|done].
  unfold MAX_SAFE_INTEGER in *. lia.
Qed.

Lemma uptime_parts (seconds : Z) :
  0 ≤ seconds →
  0 ≤ seconds / 3600 ∧
  0 ≤ Z.rem seconds 3600 / 60 < 60 ∧
  0 ≤ seconds - (3600 * (seconds / 3600) + 60 * (Z.rem seconds 3600 / 60)) < 60.
Proof.
  intros Hs. rewrite rem_3600_nonneg by done.
  pose proof (Z.div_mod seconds 3600 ltac:(lia)) as Hdm.
  pose proof (Z.mod_pos_bound seconds 3600 ltac:(lia)) as Hm.
  pose proof (Z.div_mod (seconds `mod` 3600) 60 ltac:(lia)) as Hdm'.
  pose proof (Z.mod_pos_bound (seconds `mod` 3600) 60 ltac:(lia)) as Hm'.
  assert (0 ≤ seconds / 3600) as Hh by (apply Z.div_pos; lia).
  assert (0 ≤ seconds `mod` 3600 / 60) as Hmin by (apply Z.div_pos; lia).
  split; [done|]. split; lia.
Qed.

(** X14. For an uptime that is a whole number of seconds, not negative
    and at most [Number.MAX_SAFE_INTEGER], the minutes shown are below 60,
    hours and minutes together never overstate the uptime and fall short
    of it by less than a minute; below one hour only the minutes are
    printed. *)
Theorem formatUptime_parts (seconds : Z) :
  0 ≤ seconds ≤ MAX_SAFE_INTEGER →
  ∃ h m,
    hours seconds = Some h ∧
    minutes seconds = Some m ∧
    0 ≤ h ∧
    0 ≤ m < 60 ∧
    0 ≤ seconds - (3600 * h + 60 * m) < 60 ∧
    (seconds < 3600 →
     formatUptime seconds = Some (string_of_Z (seconds / 60) +:+ "m")) ∧
    (3600 ≤ seconds →
     formatUptime seconds
     = Some (string_of_Z h +:+ "h " +:+ string_of_Z m +:+ "m")).
Proof.
  intros Hs.
  destruct (uptime_parts seconds (proj1 Hs)) as (Hh & Hm & Hr).
  exists (seconds / 3600), (Z.rem seconds 3600 / 60).
  unfold formatUptime, hours, minutes.
  rewrite (safe_integer_nonneg seconds Hs). cbn [mbind option_bind].
  do 5 (split; [done|]). split.
  - intros Hlt. rewrite (Z.div_small seconds 3600) by lia. cbn [Z.ltb Z.compare].
    rewrite rem_3600_nonneg by lia. by rewrite Z.mod_small by lia.
  - intros Hge.
    assert (0 < seconds / 3600) as Hpos by (apply Z.div_str_pos; lia).
    by rewrite (proj2 (Z.ltb_lt _ _) Hpos).
Qed.

Lemma formatUptime_ninety_minutes :
  0 ≤ 5400 ≤ MAX_SAFE_INTEGER ∧ formatUptime 5400 = Some "1h 30m".
Proof.
  assert (0 ≤ 5400 ≤ MAX_SAFE_INTEGER) as Hs by (vm_compute; intuition discriminate).
  split; [exact Hs|].
  destruct (formatUptime_parts 5400 Hs) as (h & m & Hh & Hm & _ & _ & _ & _ & Hlong).
  rewrite Hlong by lia. vm_compute in Hh, Hm.
  injection Hh as <-. injection Hm as <-. reflexivity.
Defined.

(** X15. The dashboard prints the same uptime (a whole number of seconds,
    not negative and at most [Number.MAX_SAFE_INTEGER]) in whole minutes:
    sixty times the hours plus the minutes of the peers page; below one
    hour the two pages print the same text. *)
Theorem row_uptime_minutes (peer : Peer) :
  0 ≤ uptime peer ≤ MAX_SAFE_INTEGER →
  ∃ h m,
    hours (uptime peer) = Some h ∧
    minutes (uptime peer) = Some m ∧
    Dashboard.row_uptime peer = Some (string_of_Z (60 * h + m) +:+ "m") ∧
    (uptime peer < 3600 →
     Dashboard.row_uptime peer = formatUptime (uptime peer)).
Proof.
  intros Hs.
  destruct (uptime_parts (uptime peer) (proj1 Hs)) as (Hh & Hm & Hr).
  exists (uptime peer / 3600), (Z.rem (uptime peer) 3600 / 60).
  unfold Dashboard.row_uptime, formatUptime, hours, minutes.
  rewrite (safe_integer_nonneg _ Hs). cbn [mbind option_bind].
  do 2 (split; [done|]).
  assert (uptime peer / 60
          = 60 * (uptime peer / 3600) + Z.rem (uptime peer) 3600 / 60) as Hmin.
  { symmetry. apply (Z.div_unique _ 60 _
      (uptime peer - (3600 * (uptime peer / 3600)
                      + 60 * (Z.rem (uptime peer) 3600 / 60)))); lia. }
  split; [by rewrite Hmin|].
  intros Hlt. rewrite (Z.div_small (uptime peer) 3600) by lia.
  cbn [Z.ltb Z.compare].
  rewrite rem_3600_nonneg by lia. by rewrite Z.mod_small by lia.
Qed.

End PeersPageProperties.

Section PeersPagePanels.
Import Api ApiTypes PeersPage.

Lemma row_uptime_short :
  (0 ≤ uptime (mkPeer "200:abcd::1" "peer_key_123" 12345 1800 None None)
     ≤ MAX_SAFE_INTEGER)%Z ∧
  Dashboard.row_uptime (mkPeer "200:abcd::1" "peer_key_123" 12345 1800 None None)
  = formatUptime 1800.
Proof.
  assert (0 ≤ uptime (mkPeer "200:abcd::1" "peer_key_123" 12345 1800 None None)
            ≤ MAX_SAFE_INTEGER)%Z as Hs
    by (vm_compute; intuition discriminate).
  split; [exact Hs|].
  destruct (row_uptime_minutes
              (mkPeer "200:abcd::1" "peer_key_123" 12345 1800 None None) Hs)
    as (h & m & _ & _ & _ & Hshort).
  apply Hshort. simpl. lia.
Defined.

(** X16. In every state the peers page shows exactly one of its four
    blocks: the loading notice, the error, the peer table or the empty
    state; the table is never shown next to an error. *)
Theorem peers_page_one_block (st : page_state) :
  length (filter (λ b, b = true)
            [loading_shown st; error_shown st; list_shown st; empty_shown st])
  = 1.
Proof.
  unfold loading_shown, error_shown, list_shown, empty_shown.
  destruct (isLoading st), (shown (error st)), (peers st); reflexivity.
Qed.

End PeersPagePanels.

(** ** Frontend: the dashboard *)

Section DashboardProperties.
Import Api ApiTypes Dashboard.

Lemma fetchData_keeps_wizard (cancelled : bool) (now : Z)
    (outcome : completion (Node.NodeInfo * PeersResponse)) (st : page_state) :
  showWizard st = true → showWizard (fetchData cancelled now outcome st) = true.
Proof.
  intros Hw. unfold fetchData.
  destruct outcome as [[nodeData peersData]|err], cancelled; simpl; try done.
  rewrite Hw. by rewrite andb_false_r.
Qed.

(** X17. Polling never closes the wizard, and a poll that succeeds with no
    peer opens it. *)
Theorem dashboard_wizard (st : page_state)
    (polls : list (bool * Z * completion (Node.NodeInfo * PeersResponse))) :
  (showWizard st = true → showWizard (polls_run st polls) = true) ∧
  (∀ now nodeData,
     showWizard (fetchData false now (Return (nodeData, mkPeersResponse [])) st)
     = true).
Proof.
  split.
  - revert st. induction polls as [|poll polls IH]; intros st Hw; [done|].
    apply IH. by apply fetchData_keeps_wizard.
  - intros now nodeData. simpl. by destruct (showWizard st).
Qed.

(** X18. The two requests of a poll are taken together: when either of
    them fails, neither the node information nor the peers are updated,
    whatever the other one brought, and the error of one of the failed
    requests is recorded. *)
Theorem dashboard_all_or_nothing (now : Z)
    (node : completion Node.NodeInfo) (peers_response : completion PeersResponse)
    (peers_first : bool) (st : page_state) :
  ((∃ err, node = Throw err) ∨ (∃ err, peers_response = Throw err)) →
  let st' := fetchData false now (promise_all node peers_response peers_first) st in
  nodeInfo st' = nodeInfo st ∧
  peers st' = peers st ∧
  showWizard st' = showWizard st ∧
  lastUpdate st' = lastUpdate st ∧
  isLoading st' = false ∧
  ∃ err, error st' = Some (message_or "Failed to fetch data" err) ∧
         (node = Throw err ∨ peers_response = Throw err).
Proof.
  intros Hfail. cbv zeta.
  destruct node as [nodeData|err_n], peers_response as [peersData|err_p];
    simpl.
  - destruct Hfail as [[err Herr]|[err Herr]]; discriminate.
  - do 5 (split; [done|]). exists err_p. split; [done | by right].
  - do 5 (split; [done|]). exists err_n. split; [done | by left].
  - do 5 (split; [done|]). destruct peers_first.
    + exists err_p. split; [done | by right].
    + exists err_n. split; [done | by left].
Qed.

Lemma dashboard_wizard_stays :
  showWizard wizard_page = true ∧
  showWizard
    (polls_run wizard_page
       [(false, 3000%Z,
         Return (Node.mkNodeInfo "200:1234::1" "a1b2" "[1 2 3]" "300:1234::/64",
                 mkPeersResponse
                   [mkPeer "200:abcd::1" "peer_key_123" 12345 3600 None None]));
        (false, 5000%Z, Throw (ErrorObj "TypeError" "Failed to fetch"))])
  = true.
Proof.
  split; [reflexivity|].
  apply (proj1 (dashboard_wizard wizard_page _)). reflexivity.
Defined.

Lemma dashboard_peers_down :
  nodeInfo
    (fetchData false 3000%Z
       (promise_all
          (Return (Node.mkNodeInfo "200:9999::1" "ffff" "[4]" "300:9999::/64"))
          (Throw (ErrorObj "Error" "HTTP 503: SERVICE UNAVAILABLE"))
          true)
       online_page)
  = nodeInfo online_page.
Proof.
  destruct (dashboard_all_or_nothing 3000%Z
              (Return (Node.mkNodeInfo "200:9999::1" "ffff" "[4]" "300:9999::/64"))
              (Throw (ErrorObj "Error" "HTTP 503: SERVICE UNAVAILABLE"))
              true online_page
              (or_intror (ex_intro _ _ eq_refl)))
    as (Hnode & _).
  exact Hnode.
Defined.

End DashboardProperties.

(** ** Frontend: the first-run wizard *)

Section WizardProperties.
Import Api ApiTypes Wizard.

(** X19. The wizard closes itself (after 1.5 s, with confetti) exactly
    when the bootstrap request resolves with at least one added peer,
    whether or not the reload succeeded; it then stays in its loading
    state with no error. In every other case it starts nothing, sets an
    error message and leaves the loading state. *)
Theorem handleBootstrap_outcomes (bootstrap : completion BootstrapResponse)
    (st : wizard_state) :
  (snd (handleBootstrap bootstrap st) = [Confetti; CompleteAfter 1500] ∧
   isLoading (fst (handleBootstrap bootstrap st)) = true ∧
   error (fst (handleBootstrap bootstrap st)) = None ∧
   ∃ result, bootstrap = Return result ∧ peers_added result ≠ [])
  ∨
  (snd (handleBootstrap bootstrap st) = [] ∧
   isLoading (fst (handleBootstrap bootstrap st)) = false ∧
   is_Some (error (fst (handleBootstrap bootstrap st))) ∧
   ∀ result, bootstrap = Return result → peers_added result = []).
Proof.
  unfold handleBootstrap.
  destruct bootstrap as [result|err]; simpl.
  - destruct (peers_added result) as [|peer rest] eqn:Hadded; simpl.
    + right. do 3 (split; [by eauto|]). intros r Hr. by injection Hr as <-.
    + left. do 3 (split; [done|]). exists result. by rewrite Hadded.
  - right. do 3 (split; [by eauto|]). intros r Hr. discriminate Hr.
Qed.

(** The outcome does not look at [reload_success], nor at anything else of
    the state than the fields it overwrites. *)
Lemma handleBootstrap_reload_blind (added : list string) (total : Z)
    (st : wizard_state) :
  handleBootstrap (Return (mkBootstrapResponse added total true)) st
  = handleBootstrap (Return (mkBootstrapResponse added total false)) st.
Proof. reflexivity. Qed.

End WizardProperties.

(** ** Frontend: the invite modal *)

Section InviteProperties.
Import Api ApiTypes Invite.

(** X20. After [loadInvite] the open modal never shows the spinner. It
    shows the new invite when the request succeeded, and the error (with
    the retry button) when it failed with a message that is not empty; an
    invite loaded earlier is kept in the state but not shown then. *)
Theorem loadInvite_render (getInvite : completion InviteResponse)
    (st : modal_state) :
  render true (loadInvite getInvite st) ≠ Spinner ∧
  (∀ result, getInvite = Return result →
     render true (loadInvite getInvite st) = Content result) ∧
  (∀ err, getInvite = Throw err →
     message_or "Failed to generate invite" err ≠ "" →
     render true (loadInvite getInvite st)
     = ErrorRetry (message_or "Failed to generate invite" err) ∧
     invite (loadInvite getInvite st) = invite st).
Proof.
  split; [|split].
  - unfold render, loadInvite.
    destruct getInvite as [result|err]; cbn [negb isLoading error invite];
      [done|].
    destruct (shown (Some (message_or "Failed to generate invite" err)));
      [done|]. by destruct (invite st).
  - intros result ->. reflexivity.
  - intros err -> Hne. unfold render, loadInvite, shown. simpl.
    by rewrite bool_decide_eq_false_2.
Qed.

Lemma loadInvite_failed_retry :
  render true
    (loadInvite (Throw (ErrorObj "Error" "Yggdrasil socket not found"))
       {| invite := Some (mkInviteResponse "data:image/png;base64,AAAA"
                            "tcp://[200:1234::1]:9001" "200:1234::1");
          isLoading := false; error := None; copied := false |})
  = ErrorRetry "Yggdrasil socket not found".
Proof.
  apply (proj2 (proj2 (loadInvite_render
                         (Throw (ErrorObj "Error" "Yggdrasil socket not found"))
                         _)) _ eq_refl).
  discriminate.
Defined.

End InviteProperties.

(** ** Frontend: the status page *)

Section StatusPageProperties.
Import Api ApiTypes StatusPage.

(** X21. After [fetchStatus] the page is never loading. For a response
    that is not ok it shows the fixed message "Failed to fetch status",
    whatever the body says, and keeps the status it had; for an ok
    response with a JSON body it shows the cards, the backend card active
    exactly when the body is an object whose [status] is the string "ok". *)
Theorem fetchStatus_render (fetch : string → fetch_outcome) (st : page_state) :
  render (fetchStatus fetch st) ≠ LoadingView ∧
  (∀ response, fetch "/api/status" = Responds response → ok response = false →
     render (fetchStatus fetch st) = ErrorCard "Failed to fetch status" ∧
     apiStatus (fetchStatus fetch st) = apiStatus st) ∧
  (∀ response data,
     fetch "/api/status" = Responds response → ok response = true →
     body response = Parses data →
     apiStatus (fetchStatus fetch st) = data ∧
     ∃ backend node version,
       render (fetchStatus fetch st) = Cards backend node version ∧
       (backend = Active ↔ field "status" data = Some (JStr "ok"))).
Proof.
  split; [|split].
  - unfold render, fetchStatus.
    destruct (fetch "/api/status") as [response|err].
    + destruct (ok response); simpl; [|done].
      destruct (body response) as [data|err]; simpl; [done|].
      by destruct (negb _).
    + simpl. by destruct (negb _).
  - intros response Hfetch Hok. unfold render, fetchStatus.
    rewrite Hfetch, Hok. simpl. done.
  - intros response data Hfetch Hok Hbody. unfold render, fetchStatus.
    rewrite Hfetch, Hok, Hbody. simpl. split; [done|].
    eexists _, _, _. split; [done|]. unfold backend_card. simpl.
    destruct (field "status" data) as [[| | |s| |]|]; try done.
    destruct (decide (s = "ok")) as [->|Hne]; [done|].
    split; [done|]. congruence.
Qed.

Lemma fetchStatus_bad_gateway :
  render (fetchStatus (λ _, Responds bad_gateway) initial)
  = ErrorCard "Failed to fetch status".
Proof.
  apply (proj1 (proj2 (fetchStatus_render (λ _, Responds bad_gateway) initial))
           bad_gateway eq_refl eq_refl).
Defined.

End StatusPageProperties.

(** ** The start script *)

Section StartScriptProperties.
Import StartScript.

#[local] Set Warnings "-clear-no-such-hyp".

(** X22. [start.sh] runs [docker compose up] exactly when Docker and
    Docker Compose are there and port 80 is free or the answer to the
    prompt is "y" or "Y"; it ends with status 0 exactly when it ran the
    command and the command succeeded, and with status 1 when it did not
    run it. *)
Theorem start_runs_compose (h : host) :
  (fst (start h) = true ↔
   has_docker h = true ∧ has_compose h = true ∧
   (port_80_listening h = false ∨ reply h = Some "y" ∨ reply h = Some "Y")) ∧
  (snd (start h) = 0%Z ↔ fst (start h) = true ∧ compose_up h = 0%Z) ∧
  (fst (start h) = false → snd (start h) = 1%Z).
Proof.
  unfold start.
  destruct (has_docker h), (has_compose h), (port_80_listening h);
    cbn [negb]; try (cbn [fst snd]; naive_solver).
  destruct (reply h) as [answer|]; [|cbn [fst snd]; naive_solver].
  destruct (decide (answer = "y")) as [->|Hy]; [cbn; naive_solver|].
  destruct (decide (answer = "Y")) as [->|HY]; [cbn; naive_solver|].
  rewrite (bool_decide_eq_false_2 _ Hy), (bool_decide_eq_false_2 _ HY).
  cbn. naive_solver.
Qed.

End StartScriptProperties.

(** ** Frontend: a click on the exit-node toggle *)

Section SettingsClick.
Import Api Settings.

Lemma click_state
    (setExitNode : bool → completion ExitNodeResponse) (st : page_state) :
  exitNodeEnabled (fst (click setExitNode st))
  = xorb (exitNodeEnabled st)
         (went_through (setExitNode (negb (exitNodeEnabled st)))) ∧
  isSaving (fst (click setExitNode st)) = false ∧
  isLoading (fst (click setExitNode st)) = isLoading st.
Proof.
  unfold click, handleExitNodeToggle, attempt.
  destruct (setExitNode (negb (exitNodeEnabled st))) as [result|err]; simpl.
  - destruct (reload_success result); simpl.
    + by rewrite xorb_true_r.
    + by rewrite negb_involutive, xorb_false_r.
  - by rewrite negb_involutive, xorb_false_r.
Qed.

(** X23. A click flips the toggle exactly when the request resolves with
    a successful reload; in every case saving is over afterwards, so the
    button is enabled again once the page has loaded. *)
Theorem click_flips_on_success
    (setExitNode : bool → completion ExitNodeResponse) (st : page_state) :
  exitNodeEnabled (fst (click setExitNode st))
  = xorb (exitNodeEnabled st)
         (went_through (setExitNode (negb (exitNodeEnabled st)))) ∧
  isSaving (fst (click setExitNode st)) = false ∧
  toggle_disabled (fst (click setExitNode st)) = isLoading st.
Proof.
  destruct (click_state setExitNode st) as (Hflip & Hsaving & Hloading).
  split; [done|]. split; [done|].
  unfold toggle_disabled. by rewrite Hsaving, Hloading.
Qed.

(** X24. When the backend has changed the configuration but the reload
    failed, the page shows the opposite of what the backend reports as
    the state of the exit node. *)
Theorem click_disagrees_after_failed_reload
    (setExitNode : bool → completion ExitNodeResponse) (st : page_state)
    (result : ExitNodeResponse) :
  setExitNode (negb (exitNodeEnabled st)) = Return result →
  enabled result = negb (exitNodeEnabled st) →
  reload_success result = false →
  exitNodeEnabled (fst (click setExitNode st)) = negb (enabled result).
Proof.
  intros Hres Henabled Hreload.
  destruct (click_state setExitNode st) as (Hflip & _).
  rewrite Hflip, Hres. simpl. rewrite Hreload, Henabled.
  by rewrite negb_involutive, xorb_false_r.
Qed.

Lemma click_reload_failed :
  exitNodeEnabled (fst (click reload_failed toggle_off)) = false ∧
  enabled {| enabled := true; advertised_routes := ["::/0"];
             reload_success := false |} = true.
Proof.
  split; [|reflexivity].
  apply (click_disagrees_after_failed_reload reload_failed toggle_off
           {| enabled := true; advertised_routes := ["::/0"];
              reload_success := false |});
    reflexivity.
Defined.

End SettingsClick.

(** ** Invite: the peering string *)

Section PeeringProperties.
Import Peering.

Lemma string_length_app (s t : string) :
  String.length (s +:+ t) = String.length s + String.length t.
Proof. induction s as [|c s IH]; simpl; [done|]. by rewrite IH. Qed.

Lemma string_app_inj_r (t s1 s2 : string) : s1 +:+ t = s2 +:+ t → s1 = s2.
Proof.
  revert s2. induction s1 as [|c s1 IH]; intros [|d s2] Heq.
  - done.
  - apply (f_equal String.length) in Heq.
    rewrite !string_length_app in Heq. simpl in Heq. lia.
  - apply (f_equal String.length) in Heq.
    rewrite !string_length_app in Heq. simpl in Heq. lia.
  - change (String c (s1 +:+ t) = String d (s2 +:+ t)) in Heq.
    injection Heq as -> Heq. f_equal. by apply IH.
Qed.

(** X25. The peering string of an invite determines the address it was
    made from: two addresses with the same peering string are equal; and
    the string is thirteen characters longer than the address. *)
Theorem peering_string_inj (a b : string) :
  (peering_string a = peering_string b → a = b) ∧
  String.length (peering_string a) = String.length a + 13.
Proof.
  unfold peering_string. split.
  - intros Heq. apply (inj (String.app "tcp://[")) in Heq.
    by apply string_app_inj_r in Heq.
  - rewrite !string_length_app. simpl. lia.
Qed.

Lemma peering_string_example :
  peering_string "200:1234::1" = "tcp://[200:1234::1]:9001" ∧
  ∀ b, peering_string "200:1234::1" = peering_string b → "200:1234::1" = b.
Proof.
  split; [reflexivity|].
  intros b. apply (proj1 (peering_string_inj "200:1234::1" b)).
Defined.

End PeeringProperties.
